(** * hartrebounds.py: the clip-compilation pipeline, embedded and verified

    The Python program turns the play-by-play feed of one game into a
    highlight compilation.  This development embeds its core
    ([extract_off_def], [download_video_from_page], [overlay_text_on_video],
    [concatenate_videos], [replace_clip], [prompt_for_replacements] and the
    part of [main] that starts once the events are known) as executable
    Rocq functions and proves the properties the specification states.

    Conventions of the embedding:
    - Python [str] is [string]; a character is an 8-bit code point (the
      Latin-1 range), which is where the Unicode classes [\d] and [\s] and
      [str.isspace] are written out;
    - Python [int] is [Z];
    - the file system, the browser, the HTTP transport, ffmpeg and the
      terminal are a [World] that every effectful function threads; what the
      outside answers is part of the world ([net], [ffmpeg]) and the answers
      typed at the terminal are an explicit script;
    - an exception is a [Raise] result that skips the rest of the function,
      unless a [try] of the source catches it. *)

From Stdlib Require Import ZArith NArith Ascii String Decimal DecimalString DecimalN Lia.
From stdpp Require Import base option list gmap strings.

Local Open Scope Z_scope.
Local Arguments String.append !s1 s2 /.

(** ** Text: characters, [strip], [lower], [int] and [str] *)

Module Text.

Definition code (c : ascii) : N := N_of_ascii c.

(** [\d] and [str.isdecimal]: below 256 only the ten ASCII digits. *)
Definition is_digit (c : ascii) : bool :=
  ((48 <=? code c) && (code c <=? 57))%N.

(** [\s] and [str.isspace]: TAB, LF, VT, FF, CR, the four separators
    FS GS RS US, SPACE, NEL and NBSP. *)
Definition is_space (c : ascii) : bool :=
  ((9 <=? code c) && (code c <=? 13) || (28 <=? code c) && (code c <=? 32)
   || (code c =? 133) || (code c =? 160))%N.

Definition digit_val (c : ascii) : N := (code c - 48)%N.

Fixpoint all_chars (p : ascii -> bool) (s : string) : bool :=
  match s with
  | EmptyString => true
  | String c s' => p c && all_chars p s'
  end.

(** The first character of [s], if any, does not satisfy [p]. *)
Definition stops (p : ascii -> bool) (s : string) : bool :=
  match s with
  | EmptyString => true
  | String c _ => negb (p c)
  end.

Fixpoint lstrip (s : string) : string :=
  match s with
  | String c s' => if is_space c then lstrip s' else s
  | EmptyString => EmptyString
  end.

Fixpoint rstrip (s : string) : string :=
  match s with
  | String c s' =>
      match rstrip s' with
      | EmptyString => if is_space c then EmptyString else String c EmptyString
      | r => String c r
      end
  | EmptyString => EmptyString
  end.

(** [str.strip()] *)
Definition strip (s : string) : string := rstrip (lstrip s).

Definition lower_char (c : ascii) : ascii :=
  let n := code c in
  if ((65 <=? n) && (n <=? 90) || (192 <=? n) && (n <=? 222) && negb (n =? 215))%N
  then ascii_of_N (n + 32) else c.

(** [str.lower()] *)
Fixpoint lower (s : string) : string :=
  match s with
  | String c s' => String (lower_char c) (lower s')
  | EmptyString => EmptyString
  end.

(** [str.replace(a, b)] for single characters. *)
Fixpoint replace_char (a b : ascii) (s : string) : string :=
  match s with
  | String c s' => String (if Ascii.eqb c a then b else c) (replace_char a b s')
  | EmptyString => EmptyString
  end.

(** The value of a run of decimal digits, most significant first. *)
Fixpoint digits_acc (s : string) (acc : N) : N :=
  match s with
  | String c s' => digits_acc s' (10 * acc + digit_val c)%N
  | EmptyString => acc
  end.

(** [int(s)] for a string [s] that a [\d+] group matched. *)
Definition int_of_digits (s : string) : Z := Z.of_N (digits_acc s 0).

(** The body of an integer literal as [int()] accepts it: digits, with
    single underscores allowed between two digits.  [prev] tells whether
    the previous character was a digit. *)
Fixpoint int_body (prev : bool) (s : string) (acc : N) : option N :=
  match s with
  | EmptyString => if prev then Some acc else None
  | String c s' =>
      if is_digit c then int_body true s' (10 * acc + digit_val c)%N
      else if Ascii.eqb c "_" && prev then int_body false s' acc
      else None
  end.

(** [int(s)] for an arbitrary string: surrounding whitespace, an optional
    sign, then the body.  [None] is [ValueError]. *)
Definition py_int (s : string) : option Z :=
  match strip s with
  | String "-" r => (fun n => - Z.of_N n) <$> int_body false r 0
  | String "+" r => Z.of_N <$> int_body false r 0
  | t => Z.of_N <$> int_body false t 0
  end.

(** [str(n)] and the [{n}] of an f-string, for an [int]. *)
Definition str_N (n : N) : string := NilEmpty.string_of_uint (N.to_uint n).

Definition str (z : Z) : string :=
  if z <? 0 then "-" +:+ str_N (Z.to_N (- z)) else str_N (Z.to_N z).

End Text.

(** ** The fragment of [re] the program uses

    Both patterns of the pipeline are sequences of literal characters,
    greedy [cls*] and capturing greedy [(cls+)].  The matcher is the
    backtracking one of [re]: a repetition first takes as many characters as
    it can and gives them back one by one while the rest of the pattern
    fails. *)

Module Regex.

Inductive atom :=
| Lit (c : ascii)
| Star (cls : ascii -> bool)
| Group (cls : ascii -> bool).

Fixpoint lits (s : string) : list atom :=
  match s with
  | EmptyString => []
  | String c s' => Lit c :: lits s'
  end.

(** [greedy cls k taken s]: extend [taken] with characters of class [cls]
    from the front of [s], longest first, until the continuation [k]
    accepts. *)
Fixpoint greedy {R} (cls : ascii -> bool) (k : string -> string -> option R)
    (taken s : string) : option R :=
  match s with
  | String c s' =>
      if cls c then
        match greedy cls k (taken +:+ String c EmptyString) s' with
        | Some r => Some r
        | None => k taken s
        end
      else k taken s
  | EmptyString => k taken s
  end.

(** Match the pattern at the very start of [s]; the result lists the text
    of the groups, in order. *)
Fixpoint match_here (pat : list atom) (s : string) : option (list string) :=
  match pat with
  | [] => Some []
  | Lit c :: pat' =>
      match s with
      | String c' s' => if Ascii.eqb c' c then match_here pat' s' else None
      | EmptyString => None
      end
  | Star cls :: pat' => greedy cls (fun _ rest => match_here pat' rest) EmptyString s
  | Group cls :: pat' =>
      greedy cls
        (fun cap rest =>
           match cap with
           | EmptyString => None
           | _ => cons cap <$> match_here pat' rest
           end)
        EmptyString s
  end.

(** [re.search]: the match at the leftmost position that has one. *)
Fixpoint search (pat : list atom) (s : string) : option (list string) :=
  match match_here pat s with
  | Some gs => Some gs
  | None =>
      match s with
      | String _ s' => search pat s'
      | EmptyString => None
      end
  end.

End Regex.

(** ** Statistics in descriptions and in file names *)

Module Stats.
Import Text Regex.

(** [r'Off:(\d+)\s*Def:(\d+)'] *)
Definition off_def_pattern : list atom :=
  lits "Off:" ++ [Group is_digit; Star is_space] ++ lits "Def:" ++ [Group is_digit].

(** [r'Off(\d+)_Def(\d+)_Total(\d+)'] *)
Definition filename_pattern : list atom :=
  lits "Off" ++ [Group is_digit] ++ lits "_Def" ++ [Group is_digit]
    ++ lits "_Total" ++ [Group is_digit].

(** [extract_off_def]: the result is a Python pair whose components are
    an [int] or [None]. *)
Definition extract_off_def (description : string) : option Z * option Z :=
  match search off_def_pattern description with
  | Some [g1; g2] => (Some (int_of_digits g1), Some (int_of_digits g2))
  | _ => (None, None)
  end.

(** The three groups [replace_clip] reads back from a file name. *)
Definition filename_stats (name : string) : option (string * string * string) :=
  match search filename_pattern name with
  | Some [g1; g2; g3] => Some (g1, g2, g3)
  | _ => None
  end.

(** The names [main] gives to the raw and to the annotated clip of the
    event at index [idx]. *)
Definition clip_name (idx off deff : Z) : string :=
  "clip_" +:+ str idx +:+ "_Off" +:+ str off +:+ "_Def" +:+ str deff
    +:+ "_Total" +:+ str (off + deff) +:+ ".mp4".

Definition processed_name (idx off deff : Z) : string :=
  "processed_" +:+ clip_name idx off deff.

(** The names [replace_clip] uses; [off] and [deff] are the matched text,
    kept as text. *)
Definition temp_clip_name (clip_number : Z) : string :=
  "temp_clip_" +:+ str clip_number +:+ ".mp4".

Definition replacement_name (clip_number : Z) (off deff : string) : string :=
  "processed_clip_" +:+ str clip_number +:+ "_Off" +:+ off +:+ "_Def" +:+ deff
    +:+ "_Total" +:+ str (int_of_digits off + int_of_digits deff) +:+ ".mp4".

(** [f'Off: {off} Def: {deff}'] *)
Definition overlay_text (off deff : string) : string :=
  "Off: " +:+ off +:+ " Def: " +:+ deff.

End Stats.

(** ** The world the program runs in *)

Module Sys.

Abbreviation bytes := (list Byte.byte).

(** One HTTP response to [requests.get(video_url, stream=True)]: the status,
    the chunks [iter_content] delivers and whether the stream then ends
    normally ([false]: it breaks after these chunks and raises). *)
Record Response := {
  status_code : Z;
  chunks : list bytes;
  stream_ok : bool;
}.

(** What one browser session meets.  [goto_ok i] and [selector_ok i] tell
    whether [page.goto] and [page.wait_for_selector] return (rather than
    raise) at attempt [i]; [video_src] is the [src] attribute of the video
    element; [response] is [None] when [requests.get] itself raises. *)
Record Page := {
  launch_ok : bool;
  goto_ok : nat -> bool;
  selector_ok : nat -> bool;
  video_src : option string;
  response : option Response;
}.

(** How one ffmpeg invocation ends: the process exits with a return code,
    having written its output file or not, or it cannot be started at all
    ([subprocess.run] raises [OSError]). *)
Inductive Tool :=
| Exited (returncode : Z) (written : option bytes) (stderr : string)
| NotStarted.

Inductive Question :=
| AskReplaceAny
| AskClipNumber (count : nat)
| AskNewUrl (clip : Z)
| AskReplaceAnother.

Inductive Message :=
| MsgAttempt (n : nat)
| MsgErrorWaitingForVideo
| MsgErrorLoadingPage
| MsgRetrying
| MsgMaxRetries
| MsgVideoSourceUrl (url : string)
| MsgDownloadCompleted (path : string)
| MsgFailedToDownload (status : Z)
| MsgOverlayed (output : string)
| MsgErrorOverlaying (output : string)
| MsgFfmpegErrorOutput (stderr : string)
| MsgCreatedFinalVideo (output : string)
| MsgErrorConcatenating (output : string)
| MsgCouldNotFindStats (filename : string)
| MsgDownloadingReplacement (clip : Z)
| MsgApplyingOverlay (clip : Z)
| MsgReplacementCompleted (clip : Z)
| MsgInvalidClipNumber (count : nat)
| MsgInvalidInput
| MsgNoMatchingEvents
| MsgSkipping (description : string)
| MsgProcessingEvent (n : Z) (count : nat) (event_num : Z)
| MsgVideoPageUrl (url : string)
| MsgWaiting
| MsgNoVideosProcessed
| MsgReplacementsMade
| MsgSummaryHeader (text : string)
| MsgSummary (text : string)
| MsgAllDone.

(** Everything the program does to the outside, in the order it does it. *)
Inductive Effect :=
| Print (m : Message)
| Ask (q : Question)
| PlaywrightStart
| PlaywrightStop
| BrowserLaunch
| BrowserClose
| PageGoto (url : string)
| WaitSelector
| HttpGet (url : string)
| Run (command : list string)
| Sleep.

Inductive exn :=
| VideoSourceNotFound
| PlaywrightError
| RequestException
| OSError
| FileNotFoundError (path : string)
| IndexError
| TypeError
| EOFError.

Inductive res (A : Type) :=
| Ok (a : A)
| Raise (e : exn).
Arguments Ok {A} a.
Arguments Raise {A} e.

(** Files are keyed by the path the program uses; all its paths are
    relative to the current directory, which never changes. *)
Record World := mkWorld {
  fs : gmap string bytes;
  log : list Effect;
  sessions : nat;               (* browser sessions started so far *)
  runs : nat;                   (* ffmpeg invocations so far *)
  net : nat -> Page;            (* what the n-th session will meet *)
  ffmpeg : nat -> Tool;         (* how the n-th invocation will end *)
  abspath : string -> string;   (* os.path.abspath *)
}.

Definition set_fs (f : gmap string bytes -> gmap string bytes) (w : World) : World :=
  mkWorld (f (fs w)) (log w) (sessions w) (runs w) (net w) (ffmpeg w) (abspath w).

Definition add_log (e : Effect) (w : World) : World :=
  mkWorld (fs w) (log w ++ [e]) (sessions w) (runs w) (net w) (ffmpeg w) (abspath w).

Definition next_session (w : World) : World :=
  mkWorld (fs w) (log w) (S (sessions w)) (runs w) (net w) (ffmpeg w) (abspath w).

Definition next_run (w : World) : World :=
  mkWorld (fs w) (log w) (sessions w) (S (runs w)) (net w) (ffmpeg w) (abspath w).

(** Computations: a result or an exception, and the world afterwards. *)
Definition M (A : Type) : Type := World -> res A * World.

Definition ret {A} (a : A) : M A := fun w => (Ok a, w).

Definition bind {A B} (m : M A) (k : A -> M B) : M B :=
  fun w =>
    match m w with
    | (Ok a, w') => k a w'
    | (Raise e, w') => (Raise e, w')
    end.

Definition raise {A} (e : exn) : M A := fun w => (Raise e, w).

(** [try: m finally: h] *)
Definition finally {A} (m : M A) (h : M unit) : M A :=
  fun w =>
    match m w with
    | (r, w') =>
        match h w' with
        | (Ok _, w'') => (r, w'')
        | (Raise e, w'') => (Raise e, w'')
        end
    end.

Definition emit (e : Effect) : M unit := fun w => (Ok tt, add_log e w).

Definition print (m : Message) : M unit := emit (Print m).

Definition get_world : M World := fun w => (Ok w, w).

(** [open(path, 'wb')] truncates or creates; [file.write] appends. *)
Definition create_file (path : string) : M unit :=
  fun w => (Ok tt, set_fs (insert path []) w).

Definition append_file (path : string) (b : bytes) : M unit :=
  fun w => (Ok tt, set_fs (insert path (default [] (fs w !! path) ++ b)) w).

Definition write_file (path : string) (b : bytes) : M unit :=
  fun w => (Ok tt, set_fs (insert path b) w).

(** [os.remove] *)
Definition os_remove (path : string) : M unit :=
  fun w =>
    match fs w !! path with
    | Some _ => (Ok tt, set_fs (delete path) w)
    | None => (Raise (FileNotFoundError path), w)
    end.

End Sys.

Declare Scope py_scope.
Delimit Scope py_scope with py.
Notation "x <- m ;; k" := (Sys.bind m (fun x => k))
  (at level 100, m at next level, right associativity) : py_scope.
Notation "m ;; k" := (Sys.bind m (fun _ => k))
  (at level 100, right associativity) : py_scope.
Local Open Scope py_scope.

(** ** ClipRetriever: [download_video_from_page] *)

Module Retriever.
Import Sys.

Definition max_retries : nat := 5.

(** The retry loop.  [attempts] is what is left of [range(max_retries)].
    The result says whether the function goes on after the loop ([true]:
    [break], or the range is used up) or has returned ([false]). *)
Fixpoint load_page (p : Page) (video_page_url : string) (attempts : list nat) : M bool :=
  match attempts with
  | [] => ret true
  | attempt :: rest =>
      print (MsgAttempt (attempt + 1)) ;;
      emit (PageGoto video_page_url) ;;
      if goto_ok p attempt then
        emit WaitSelector ;;
        if selector_ok p attempt then ret true
        else
          print MsgErrorWaitingForVideo ;;
          emit BrowserClose ;;
          ret false
      else
        print MsgErrorLoadingPage ;;
        if (attempt <? max_retries - 1)%nat then
          print MsgRetrying ;;
          emit Sleep ;;
          load_page p video_page_url rest
        else
          print MsgMaxRetries ;;
          emit BrowserClose ;;
          ret false
  end.

Fixpoint write_chunks (path : string) (cs : list bytes) : M unit :=
  match cs with
  | [] => ret tt
  | c :: cs' => append_file path c ;; write_chunks path cs'
  end.

(** The body of the [with sync_playwright() as p:] block.  [file_path] is
    [file_name] under the current directory, so the file is keyed by
    [file_name]. *)
Definition session_body (p : Page) (video_page_url file_name : string) : M unit :=
  (if launch_ok p then emit BrowserLaunch else raise PlaywrightError) ;;
  go_on <- load_page p video_page_url (seq 0 max_retries) ;;
  if negb go_on then ret tt
  else
    match video_src p with
    | None | Some EmptyString => raise VideoSourceNotFound
    | Some video_url =>
        print (MsgVideoSourceUrl video_url) ;;
        emit (HttpGet video_url) ;;
        match response p with
        | None => raise RequestException
        | Some r =>
            (if status_code r =? 200 then
               create_file file_name ;;
               write_chunks file_name (chunks r) ;;
               if stream_ok r then print (MsgDownloadCompleted file_name)
               else raise RequestException
             else print (MsgFailedToDownload (status_code r))) ;;
            emit BrowserClose
        end
    end.

(** The context manager: the session is started on entry and stopped on
    every way out of the block. *)
Definition download_video_from_page (video_page_url file_name : string) : M unit :=
  w <- get_world ;;
  emit PlaywrightStart ;;
  (fun w' => (Ok tt, next_session w')) ;;
  finally (session_body (net w (sessions w)) video_page_url file_name)
          (emit PlaywrightStop).

End Retriever.

(** ** OverlayRenderer and Concatenator: the two ffmpeg calls *)

Module Tools.
Import Sys.

(** [subprocess.run(command, ...)]: the pair of the return code and the
    captured error output.  [output] is the file the command is asked to
    write, its last argument. *)
Definition subprocess_run (command : list string) (output : string) : M (Z * string) :=
  w <- get_world ;;
  emit (Run command) ;;
  (fun w' => (Ok tt, next_run w')) ;;
  match ffmpeg w (runs w) with
  | NotStarted => raise OSError
  | Exited returncode written stderr =>
      match written with
      | Some b => write_file output b
      | None => ret tt
      end ;;
      ret (returncode, stderr)
  end.

(** [str.replace(a, by)] for a single character [a]. *)
Fixpoint replace_with (a : ascii) (by_ : string) (s : string) : string :=
  match s with
  | String c s' =>
      if Ascii.eqb c a then by_ +:+ replace_with a by_ s'
      else String c (replace_with a by_ s')
  | EmptyString => EmptyString
  end.

(** [text.replace(":", r'\:').replace("'", r"\\'")] *)
Definition safe_text (text : string) : string :=
  replace_with "'" "\\'" (replace_with ":" "\:" text).

Definition drawtext (text font_size x_pos y_pos : string) : string :=
  "drawtext=text='" +:+ safe_text text +:+ "':fontcolor=white:fontsize=" +:+ font_size
    +:+ ":box=1:boxcolor=black@0.5:boxborderw=5:x=" +:+ x_pos +:+ ":y=" +:+ y_pos.

(** The argument list, with the default size and position. *)
Definition overlay_command (input_video output_video text : string) : list string :=
  ["ffmpeg"; "-y"; "-i"; input_video;
   "-vf"; drawtext text "56" "10" "main_h - 60";
   "-codec:a"; "copy"; output_video].

(** [overlay_text_on_video].  Only [CalledProcessError] (a non-zero return
    code under [check=True]) is caught. *)
Definition overlay_text_on_video (input_video output_video text : string) : M unit :=
  r <- subprocess_run (overlay_command input_video output_video text) output_video ;;
  if fst r =? 0 then print (MsgOverlayed output_video)
  else
    print (MsgErrorOverlaying output_video) ;;
    print (MsgFfmpegErrorOutput (snd r)).

Definition manifest_path : string := "videos.txt".

(** [f"file '{os.path.abspath(video)}'\n"] *)
Definition manifest_line (path : string) : string :=
  "file '" +:+ path +:+ "'" +:+ String (ascii_of_N 10) EmptyString.

Fixpoint write_lines (path : string) (lines : list string) : M unit :=
  match lines with
  | [] => ret tt
  | l :: lines' => append_file path (list_byte_of_string l) ;; write_lines path lines'
  end.

(** The [with open('videos.txt', 'w') as f:] block. *)
Definition write_manifest (video_files : list string) : M unit :=
  w <- get_world ;;
  create_file manifest_path ;;
  write_lines manifest_path (map (fun video => manifest_line (abspath w video)) video_files).

Definition concat_command (output_file : string) : list string :=
  ["ffmpeg"; "-y"; "-f"; "concat"; "-safe"; "0"; "-i"; manifest_path;
   "-c"; "copy"; output_file].

(** The body of the [try]. *)
Definition run_concat (output_file : string) : M unit :=
  r <- subprocess_run (concat_command output_file) output_file ;;
  if fst r =? 0 then print (MsgCreatedFinalVideo output_file)
  else print (MsgErrorConcatenating output_file).

(** [concatenate_videos]: the manifest, then the tool, and [finally] the
    removal of the manifest. *)
Definition concatenate_videos (video_files : list string) (output_file : string) : M unit :=
  write_manifest video_files ;;
  finally (run_concat output_file) (os_remove manifest_path).

End Tools.

(** ** ReplacementSession: [replace_clip] and [prompt_for_replacements] *)

Module Replacement.
Import Text Stats Sys Retriever Tools.

(** [l[i]] and [l[i] = x] for a Python list: a negative index counts from
    the end, an index out of range raises [IndexError] ([None]). *)
Definition py_index (l : list string) (i : Z) : option nat :=
  let n := Z.of_nat (length l) in
  if (0 <=? i) && (i <? n) then Some (Z.to_nat i)
  else if (- n <=? i) && (i <? 0) then Some (Z.to_nat (n + i))
  else None.

(** [replace_clip].  The list is the caller's own list, changed in place;
    the model hands the changed list back. *)
Definition replace_clip (clip_number : Z) (new_url : string) (video_files : list string)
    : M (list string) :=
  match py_index video_files clip_number with
  | None => raise IndexError
  | Some pos =>
      let original_filename := default EmptyString (video_files !! pos) in
      match filename_stats original_filename with
      | None =>
          print (MsgCouldNotFindStats original_filename) ;;
          ret video_files
      | Some (off, deff, _) =>
          let input_video := temp_clip_name clip_number in
          let output_video := replacement_name clip_number off deff in
          print (MsgDownloadingReplacement clip_number) ;;
          download_video_from_page new_url input_video ;;
          print (MsgApplyingOverlay clip_number) ;;
          overlay_text_on_video input_video output_video (overlay_text off deff) ;;
          print (MsgReplacementCompleted clip_number) ;;
          ret (<[pos := output_video]> video_files)
      end
  end.

(** The variables of the [while True] loop, and what is left of the
    answers typed at the terminal. *)
Record Session := mkSession {
  replacements_made : bool;
  files : list string;
  unread : list string;
}.

Inductive flow := Break | Continue.

(** [input(q)]: the next answer of the script; [EOFError] when none is left. *)
Definition input (q : Question) (answers : list string) : M (string * list string) :=
  emit (Ask q) ;;
  match answers with
  | [] => raise EOFError
  | a :: rest => ret (a, rest)
  end.

Definition says_yes (answer : string) : bool :=
  String.eqb (lower (strip answer)) "yes".

(** The end of the loop body: "Do you want to replace another clip?" *)
Definition ask_another (st : Session) : M (flow * Session) :=
  a <- input AskReplaceAnother (unread st) ;;
  let st' := mkSession (replacements_made st) (files st) (snd a) in
  if negb (says_yes (fst a)) then ret (Break, st') else ret (Continue, st').

(** One pass through the body of the [while True] loop. *)
Definition iteration (st : Session) : M (flow * Session) :=
  a1 <- input AskReplaceAny (unread st) ;;
  if negb (says_yes (fst a1)) then
    ret (Break, mkSession (replacements_made st) (files st) (snd a1))
  else
    a2 <- input (AskClipNumber (length (files st))) (snd a1) ;;
    match py_int (strip (fst a2)) with
    | None =>
        (* except ValueError *)
        print MsgInvalidInput ;;
        ask_another (mkSession (replacements_made st) (files st) (snd a2))
    | Some n =>
        let clip_number := n - 1 in
        if (clip_number <? 0) || (clip_number >=? Z.of_nat (length (files st))) then
          print (MsgInvalidClipNumber (length (files st))) ;;
          ret (Continue, mkSession (replacements_made st) (files st) (snd a2))
        else
          a3 <- input (AskNewUrl (clip_number + 1)) (snd a2) ;;
          files' <- replace_clip clip_number (strip (fst a3)) (files st) ;;
          ask_another (mkSession true files' (snd a3))
    end.

(** [while True: ...].  Every pass that does not leave the loop reads at
    least one answer, so [fuel] larger than the number of answers is never
    used up ([None]); see [prompt_for_replacements_total]. *)
Fixpoint while_true (fuel : nat) (st : Session) : M (option Session) :=
  match fuel with
  | O => ret None
  | S fuel' =>
      r <- iteration st ;;
      match fst r with
      | Break => ret (Some (snd r))
      | Continue => while_true fuel' (snd r)
      end
  end.

(** [prompt_for_replacements]; the result carries [replacements_made] and
    the list as the session left it. *)
Definition prompt_for_replacements (answers : list string) (video_files : list string)
    : M (option Session) :=
  while_true (S (length answers)) (mkSession false video_files answers).

End Replacement.

(** ** Compiler: [main], from the point where the events are known *)

Module Compiler.
Import Text Stats Sys Retriever Tools Replacement.

(** One entry of the list [extract_events] returns. *)
Record EventInfo := {
  description : string;
  video_page_url : string;
  event_num : Z;
}.

Record Compilation := mkCompilation {
  video_files : list string;   (* processed videos with overlays *)
  temp_videos : list string;   (* raw downloaded videos *)
  total_off : Z;
  total_def : Z;
}.

(** Python truth of an [int] or [None]: [not x] holds for [None] and [0]. *)
Definition truthy (x : option Z) : bool :=
  match x with
  | Some z => negb (z =? 0)
  | None => false
  end.

(** The [for idx, event_info in enumerate(events)] loop; [count] is
    [len(events)] of the whole list. *)
Fixpoint main_loop (count : nat) (idx : Z) (events : list EventInfo) (st : Compilation)
    : M Compilation :=
  match events with
  | [] => ret st
  | event_info :: rest =>
      let '(off, deff) := extract_off_def (description event_info) in
      if negb (truthy off) && negb (truthy deff) then
        print (MsgSkipping (description event_info)) ;;
        main_loop count (idx + 1) rest st
      else
        print (MsgProcessingEvent (idx + 1) count (event_num event_info)) ;;
        print (MsgVideoPageUrl (video_page_url event_info)) ;;
        match off, deff with
        | Some off, Some deff =>
            let input_video := clip_name idx off deff in
            let output_video := processed_name idx off deff in
            download_video_from_page (video_page_url event_info) input_video ;;
            overlay_text_on_video input_video output_video
              (overlay_text (str off) (str deff)) ;;
            print MsgWaiting ;;
            emit Sleep ;;
            main_loop count (idx + 1) rest
              (mkCompilation (video_files st ++ [output_video])
                             (temp_videos st ++ [input_video]) off deff)
        | _, _ => raise TypeError   (* [off+deff] with a [None] operand *)
        end
  end.

Definition output_filename (away_team home_team game_date : string) (st : Compilation)
    : string :=
  away_team +:+ "_" +:+ home_team +:+ "_" +:+ replace_char "/" "_" game_date
    +:+ "_Off" +:+ str (total_off st) +:+ "_Def" +:+ str (total_def st)
    +:+ "_Total" +:+ str (total_off st + total_def st) +:+ ".mp4".

Definition summary (handle tag away_team home_team game_date : string) (st : Compilation)
    : string :=
  "Every " +:+ handle +:+ " rebound from " +:+ away_team +:+ " @ " +:+ home_team
    +:+ " on " +:+ game_date +:+ ". Offensive: " +:+ str (total_off st)
    +:+ ", Defensive: " +:+ str (total_def st)
    +:+ ", Total: " +:+ str (total_off st + total_def st) +:+ " " +:+ tag.

(** [for video in all_clips: os.remove(video)] *)
Fixpoint remove_all (paths : list string) : M unit :=
  match paths with
  | [] => ret tt
  | p :: rest => os_remove p ;; remove_all rest
  end.

(** [main] after [extract_events]: the loop, the concatenation, the
    replacement session, the clean-up and the captions.  The result is the
    list of clips as the session left it, or [None] when [main] returned
    before producing anything. *)
Definition main_from_events (away_team home_team game_date : string)
    (events : list EventInfo) (answers : list string) : M (option (list string)) :=
  match events with
  | [] => print MsgNoMatchingEvents ;; ret None
  | _ =>
      st <- main_loop (length events) 0 events (mkCompilation [] [] 0 0) ;;
      match video_files st with
      | [] => print MsgNoVideosProcessed ;; ret None
      | _ =>
          let output := output_filename away_team home_team game_date st in
          concatenate_videos (video_files st) output ;;
          session <- prompt_for_replacements answers (video_files st) ;;
          match session with
          | None => ret None   (* out of fuel: never, see the totality lemma *)
          | Some s =>
              (if replacements_made s then
                 print MsgReplacementsMade ;;
                 concatenate_videos (files s) output
               else ret tt) ;;
              remove_all (temp_videos st ++ files s) ;;
              print (MsgSummaryHeader "Summary Tweet: ") ;;
              print (MsgSummary (summary "@joshhart" "#Knicks" away_team home_team game_date st)) ;;
              print (MsgSummaryHeader "Summary TikTok: ") ;;
              print (MsgSummary (summary "Josh Hart" "#knicks" away_team home_team game_date st)) ;;
              print MsgAllDone ;;
              ret (Some (files s))
          end
      end
  end.

End Compiler.

(** ** Vocabulary of the statements *)

Module Spec.
Import Text Stats Sys Tools Compiler.

(** [sub] occurs somewhere in [s]. *)
Definition contains (sub s : string) : Prop :=
  exists pre post, s = pre +:+ sub +:+ post.

Fixpoint starts_with (p s : string) : bool :=
  match p, s with
  | EmptyString, _ => true
  | String a p', String b s' => Ascii.eqb a b && starts_with p' s'
  | String _ _, EmptyString => false
  end.

(** The decidable form of [contains]. *)
Fixpoint occurs_in (p s : string) : bool :=
  starts_with p s ||
  match s with
  | String _ s' => occurs_in p s'
  | EmptyString => false
  end.

(** A non-empty run of decimal digits. *)
Definition number (g : string) : Prop :=
  g <> "" /\ all_chars is_digit g = true.

(** [t] starts with [Off:<g1><whitespace>Def:<g2>]. *)
Definition labeled_pair_at (t g1 g2 : string) : Prop :=
  exists ws post,
    t = "Off:" +:+ g1 +:+ ws +:+ "Def:" +:+ g2 +:+ post
    /\ number g1 /\ all_chars is_space ws = true /\ number g2.

Definition has_labeled_pair (s : string) : Prop :=
  exists pre t g1 g2, s = pre +:+ t /\ labeled_pair_at t g1 g2.

Definition not_O (c : ascii) : bool := negb (Ascii.eqb c "O").

(** The value of a run that returned. *)
Definition returned {A} (run : res A * World) : option A :=
  match fst run with
  | Ok a => Some a
  | Raise _ => None
  end.

(** Several log entries at once. *)
Definition add_logs (evs : list Effect) (w : World) : World :=
  mkWorld (fs w) (log w ++ evs) (sessions w) (runs w) (net w) (ffmpeg w) (abspath w).

(** *** The browser resource

    What a stretch of the log does to the resource: no session, or a
    session with or without an open browser.  Stopping Playwright ends the
    driver process and, with it, the browser it launched; every other
    transition out of order is an error ([None]). *)
Inductive Held := Idle | InSession (browser : bool).

Definition resource_step (h : Held) (e : Effect) : option Held :=
  match e, h with
  | PlaywrightStart, Idle => Some (InSession false)
  | PlaywrightStart, InSession _ => None
  | BrowserLaunch, InSession false => Some (InSession true)
  | BrowserLaunch, _ => None
  | BrowserClose, InSession true => Some (InSession false)
  | BrowserClose, _ => None
  | PlaywrightStop, InSession _ => Some Idle
  | PlaywrightStop, Idle => None
  | _, _ => Some h
  end.

Fixpoint resources (evs : list Effect) (h : Held) : option Held :=
  match evs with
  | [] => Some h
  | e :: evs' =>
      match resource_step h e with
      | Some h' => resources evs' h'
      | None => None
      end
  end.

Fixpoint count_eff (p : Effect -> bool) (evs : list Effect) : nat :=
  match evs with
  | [] => 0
  | e :: evs' => ((if p e then 1 else 0) + count_eff p evs')%nat
  end.

Definition is_start (e : Effect) : bool :=
  match e with PlaywrightStart => true | _ => false end.
Definition is_stop (e : Effect) : bool :=
  match e with PlaywrightStop => true | _ => false end.
Definition is_launch (e : Effect) : bool :=
  match e with BrowserLaunch => true | _ => false end.
Definition is_close (e : Effect) : bool :=
  match e with BrowserClose => true | _ => false end.

(** What the retriever prints when it gives up, and when it is done. *)
Definition is_failure_report (e : Effect) : bool :=
  match e with
  | Print MsgMaxRetries | Print MsgErrorWaitingForVideo | Print (MsgFailedToDownload _) => true
  | _ => false
  end.

Definition is_success_report (e : Effect) : bool :=
  match e with
  | Print (MsgDownloadCompleted _) => true
  | _ => false
  end.

(** *** The manifest

    One line per file, in the order of the list. *)
Definition manifest_text (abs : string -> string) (video_files : list string) : string :=
  foldr (fun video rest => manifest_line (abs video) +:+ rest) EmptyString video_files.

(** What an ffmpeg run may have done to the files: written its output. *)
Definition tool_writes (output : string) (t : Tool) (m : gmap string bytes)
    : gmap string bytes :=
  match t with
  | Exited _ (Some b) _ => <[output := b]> m
  | _ => m
  end.

(** *** The events the main loop does not skip, with their statistics *)
Definition processed_stat (e : EventInfo) : option (Z * Z) :=
  match extract_off_def (description e) with
  | (Some off, Some deff) => if (off =? 0) && (deff =? 0) then None else Some (off, deff)
  | _ => None
  end.

End Spec.

(** ** Concrete worlds, for the examples *)

Module Examples.
Import Sys Compiler.

Definition clip_bytes : bytes := [Byte.x00; Byte.x01].
Definition film_bytes : bytes := [Byte.x02].

Definition page_with (r : Response) : Page :=
  {| launch_ok := true;
     goto_ok := fun _ => true;
     selector_ok := fun _ => true;
     video_src := Some "https://videos.nba.com/clip.mp4";
     response := Some r |}.

(** Every page loads at once and the clip arrives. *)
Definition good_page : Page :=
  page_with {| status_code := 200; chunks := [clip_bytes]; stream_ok := true |}.

(** The transport answers 200 with an empty body. *)
Definition empty_body_page : Page :=
  page_with {| status_code := 200; chunks := []; stream_ok := true |}.

Definition world_with (files : gmap string bytes) (page : Page) (tool : Tool) : World :=
  mkWorld files [] 0 0 (fun _ => page) (fun _ => tool) (fun p => "/clips/" +:+ p).

(** ffmpeg always succeeds and writes its output. *)
Definition good_world : World :=
  world_with ∅ good_page (Exited 0 (Some film_bytes) "").

Definition event (d : string) : EventInfo :=
  {| description := d;
     video_page_url := "https://www.nba.com/stats/events";
     event_num := 7 |}.

End Examples.

(** * Proofs *)

(** ** Facts about text *)

Module TextFacts.
Import Text.

Lemma sapp_assoc (a b c : string) : (a +:+ b) +:+ c = a +:+ (b +:+ c).
Proof. induction a as [|x a IH]; simpl; [reflexivity | by rewrite IH]. Qed.

Lemma sapp_nil_r (a : string) : a +:+ "" = a.
Proof. induction a as [|x a IH]; simpl; [reflexivity | by rewrite IH]. Qed.

Lemma all_chars_app p a b :
  all_chars p (a +:+ b) = all_chars p a && all_chars p b.
Proof.
  induction a as [|x a IH]; simpl; [reflexivity |].
  rewrite IH. by rewrite andb_assoc.
Qed.

Lemma space_not_digit c : is_space c = true -> is_digit c = false.
Proof. destruct c as [[] [] [] [] [] [] [] []]; vm_compute; congruence. Qed.

Lemma stops_app_nonempty p a b : a <> "" -> stops p (a +:+ b) = stops p a.
Proof. destruct a; [congruence | reflexivity]. Qed.

(** Every string splits into its longest prefix of class [p] and a rest
    that does not start with a character of that class. *)
Lemma span_exists p s :
  exists run rest, s = run +:+ rest /\ all_chars p run = true /\ stops p rest = true.
Proof.
  induction s as [|c s (run & rest & -> & Hrun & Hrest)].
  - by exists "", "".
  - destruct (p c) eqn:Hc.
    + exists (String c run), rest. simpl. by rewrite Hc, Hrun.
    + exists "", (String c (run +:+ rest)). simpl. by rewrite Hc.
Qed.

Lemma string_of_uint_digits d :
  all_chars is_digit (NilEmpty.string_of_uint d) = true.
Proof. induction d; simpl; try rewrite IHd; reflexivity. Qed.

Lemma str_N_digits n : all_chars is_digit (str_N n) = true.
Proof. apply string_of_uint_digits. Qed.

Lemma digits_acc_pos d acc :
  digits_acc (NilEmpty.string_of_uint d) (Npos acc) = Npos (Pos.of_uint_acc d acc).
Proof.
  revert acc. induction d; intros acc; simpl; [reflexivity | ..];
    match goal with
    | |- digits_acc _ (_ + digit_val ?c)%N = _ =>
        let v := eval vm_compute in (digit_val c) in change (digit_val c) with v
    end;
    rewrite <- IHd; f_equal; lia.
Qed.

Lemma digits_acc_of_uint d :
  digits_acc (NilEmpty.string_of_uint d) 0 = Pos.of_uint d.
Proof.
  induction d; simpl; [reflexivity | ..];
    match goal with
    | |- digits_acc _ (_ + digit_val ?c)%N = _ =>
        let v := eval vm_compute in (digit_val c) in change (digit_val c) with v
    end; simpl N.add; first [exact IHd | apply digits_acc_pos].
Qed.

Lemma digits_acc_str_N n : digits_acc (str_N n) 0 = n.
Proof.
  unfold str_N. rewrite digits_acc_of_uint. apply (DecimalN.Unsigned.of_to n).
Qed.

Lemma str_N_nonempty n : str_N n <> "".
Proof.
  unfold str_N. destruct n as [|p]; [discriminate |].
  simpl. intros H. apply (DecimalPos.Unsigned.to_uint_nonnil p).
  destruct (Pos.to_uint p); simpl in H; congruence.
Qed.

Lemma str_nonneg z : 0 <= z -> str z = str_N (Z.to_N z).
Proof. intros H. unfold str. destruct (Z.ltb_spec z 0); [lia | reflexivity]. Qed.

(** [int(str(z)) = z] for a non-negative [z]. *)
Lemma int_of_digits_str z : 0 <= z -> int_of_digits (str z) = z.
Proof.
  intros H. rewrite str_nonneg by done. unfold int_of_digits.
  rewrite digits_acc_str_N. lia.
Qed.

Lemma int_of_digits_nonneg s : 0 <= int_of_digits s.
Proof. unfold int_of_digits. lia. Qed.

End TextFacts.

Module IntFacts.
Import Text Spec TextFacts.

Lemma digit_not_space c : is_digit c = true -> is_space c = false.
Proof. destruct c as [[] [] [] [] [] [] [] []]; vm_compute; congruence. Qed.

Lemma rstrip_digits s : all_chars is_digit s = true -> rstrip s = s.
Proof.
  induction s as [|c s IH]; [done |]. simpl.
  intros [Hc Hs]%andb_true_iff. rewrite (IH Hs).
  destruct s; [by rewrite (digit_not_space c Hc) | done].
Qed.

Lemma strip_digits s : all_chars is_digit s = true -> strip s = s.
Proof.
  intros Hs. unfold strip.
  destruct s as [|c s]; [done |]. simpl in *.
  apply andb_true_iff in Hs as [Hc Hs].
  rewrite (digit_not_space c Hc).
  apply (rstrip_digits (String c s)). simpl. by rewrite Hc, Hs.
Qed.

Lemma int_body_digits s : forall prev acc,
  all_chars is_digit s = true -> s <> "" \/ prev = true ->
  int_body prev s acc = Some (digits_acc s acc).
Proof.
  induction s as [|c s IH]; intros prev acc Hs Hne; simpl.
  - destruct Hne as [Hne | Hprev]; [done | by rewrite Hprev].
  - simpl in Hs. apply andb_true_iff in Hs as [Hc Hs]. rewrite Hc.
    apply IH; [done | by right].
Qed.

(** On the text of a [\d+] group, [int] is [int_of_digits]. *)
Lemma py_int_digits g : number g -> py_int g = Some (int_of_digits g).
Proof.
  intros [Hne Hg]. unfold py_int, int_of_digits. rewrite (strip_digits g Hg).
  pose proof (int_body_digits g false 0%N Hg (or_introl Hne)) as Hb.
  destruct g as [|c g]; [done |].
  assert (c <> "-"%char /\ c <> "+"%char) as [Hm Hp].
  { simpl in Hg. apply andb_true_iff in Hg as [Hc _].
    split; intros ->; vm_compute in Hc; discriminate. }
  destruct c as [[] [] [] [] [] [] [] []]; try congruence;
    cbv beta iota; by rewrite Hb.
Qed.

End IntFacts.

Module RegexFacts.
Import Text Regex TextFacts.

Section Greedy.
Context {R : Type} (cls : ascii -> bool) (k : string -> string -> option R).

(** When the continuation accepts the longest run, that is the answer. *)
Lemma greedy_run run rest taken r :
  all_chars cls run = true -> stops cls rest = true ->
  k (taken +:+ run) rest = Some r ->
  greedy cls k taken (run +:+ rest) = Some r.
Proof.
  revert taken. induction run as [|c run IH]; intros taken Hrun Hrest Hk.
  - rewrite sapp_nil_r in Hk. simpl.
    destruct rest as [|c rest]; simpl; [exact Hk |].
    simpl in Hrest. apply negb_true_iff in Hrest. by rewrite Hrest.
  - simpl in Hrun. apply andb_true_iff in Hrun as [Hc Hrun].
    simpl. rewrite Hc. rewrite (IH (taken +:+ String c "")); [done..|].
    by rewrite sapp_assoc.
Qed.

(** Whatever [greedy] answers, the continuation answered it after some
    run of the class. *)
Lemma greedy_sound s taken r :
  greedy cls k taken s = Some r ->
  exists run rest,
    s = run +:+ rest /\ all_chars cls run = true /\ k (taken +:+ run) rest = Some r.
Proof.
  revert taken. induction s as [|c s IH]; intros taken H; simpl in H.
  - exists "", "". by rewrite !sapp_nil_r.
  - destruct (cls c) eqn:Hc.
    + destruct (greedy cls k (taken +:+ String c "") s) as [r'|] eqn:Hg.
      * injection H as ->. apply IH in Hg as (run & rest & -> & Hrun & Hk).
        exists (String c run), rest. simpl. rewrite Hc, Hrun.
        by rewrite sapp_assoc in Hk.
      * exists "", (String c s). by rewrite sapp_nil_r.
    + exists "", (String c s). by rewrite sapp_nil_r.
Qed.
End Greedy.

(** Literal text *)

Lemma match_lits_run l pat s :
  match_here (lits l ++ pat) (l +:+ s) = match_here pat s.
Proof.
  induction l as [|c l IH]; simpl; [reflexivity |].
  by rewrite Ascii.eqb_refl.
Qed.

Lemma match_lits_sound l pat s gs :
  match_here (lits l ++ pat) s = Some gs ->
  exists s', s = l +:+ s' /\ match_here pat s' = Some gs.
Proof.
  revert s. induction l as [|c l IH]; intros s H; simpl in H.
  - by exists s.
  - destruct s as [|c' s]; [discriminate |].
    destruct (Ascii.eqb_spec c' c) as [->|]; [|discriminate].
    apply IH in H as (s' & -> & H). by exists s'.
Qed.

(** A pattern that starts with literal text matches only where that text is. *)
Lemma match_lits_none l pat s :
  (forall s', s <> l +:+ s') -> match_here (lits l ++ pat) s = None.
Proof.
  intros H. destruct (match_here (lits l ++ pat) s) eqn:E; [|reflexivity].
  apply match_lits_sound in E as (s' & -> & _). by destruct (H s').
Qed.

(** Capturing groups *)

Lemma match_group_run cls pat g rest gs :
  g <> "" -> all_chars cls g = true -> stops cls rest = true ->
  match_here pat rest = Some gs ->
  match_here (Group cls :: pat) (g +:+ rest) = Some (g :: gs).
Proof.
  intros Hne Hg Hrest Hm. simpl. apply greedy_run; [done..|].
  simpl. destruct g; [done |]. by rewrite Hm.
Qed.

Lemma match_group_sound cls pat s gs :
  match_here (Group cls :: pat) s = Some gs ->
  exists g rest gs',
    s = g +:+ rest /\ g <> "" /\ all_chars cls g = true /\ gs = g :: gs'
    /\ match_here pat rest = Some gs'.
Proof.
  simpl. intros H. apply greedy_sound in H as (g & rest & -> & Hg & Hk).
  simpl in Hk. destruct g as [|c g]; [discriminate |].
  destruct (match_here pat rest) as [gs'|] eqn:Hm; [|discriminate].
  injection Hk as <-. by exists (String c g), rest, gs'.
Qed.

(** Non-capturing repetition *)

Lemma match_star_run cls pat run rest gs :
  all_chars cls run = true -> stops cls rest = true ->
  match_here pat rest = Some gs ->
  match_here (Star cls :: pat) (run +:+ rest) = Some gs.
Proof. intros Hrun Hrest Hm. simpl. by apply greedy_run. Qed.

Lemma match_star_sound cls pat s gs :
  match_here (Star cls :: pat) s = Some gs ->
  exists run rest,
    s = run +:+ rest /\ all_chars cls run = true /\ match_here pat rest = Some gs.
Proof.
  simpl. intros H. apply greedy_sound in H as (run & rest & -> & Hrun & Hk).
  by exists run, rest.
Qed.

(** [search] *)

Lemma search_unfold pat s :
  search pat s =
    match match_here pat s with
    | Some gs => Some gs
    | None => match s with String _ s' => search pat s' | EmptyString => None end
    end.
Proof. by destruct s. Qed.

Lemma search_hit pat s gs : match_here pat s = Some gs -> search pat s = Some gs.
Proof. intros H. rewrite search_unfold. by rewrite H. Qed.

(** A hit of [search] is a match at the start of some suffix. *)
Lemma search_sound pat s gs :
  search pat s = Some gs ->
  exists pre t, s = pre +:+ t /\ match_here pat t = Some gs.
Proof.
  induction s as [|c s IH]; rewrite search_unfold; intros H.
  - destruct (match_here pat "") eqn:E; [|discriminate].
    injection H as <-. by exists "", "".
  - destruct (match_here pat (String c s)) eqn:E.
    + injection H as <-. by exists "", (String c s).
    + apply IH in H as (pre & t & -> & H). by exists (String c pre), t.
Qed.

(** If some suffix matches, [search] finds a match. *)
Lemma search_complete pat pre t gs :
  match_here pat t = Some gs -> is_Some (search pat (pre +:+ t)).
Proof.
  intros H. induction pre as [|c pre IH].
  - simpl. rewrite (search_hit _ _ _ H). eauto.
  - change (String c pre +:+ t) with (String c (pre +:+ t)).
    rewrite search_unfold.
    destruct (match_here pat (String c (pre +:+ t))); [eauto | exact IH].
Qed.

(** [search] walks over a prefix none of whose positions has a match. *)
Lemma search_skip pat pre t :
  (forall p1 p2, pre = p1 +:+ p2 -> p2 <> "" -> match_here pat (p2 +:+ t) = None) ->
  search pat (pre +:+ t) = search pat t.
Proof.
  induction pre as [|c pre IH]; intros H; [reflexivity |].
  change (String c pre +:+ t) with (String c (pre +:+ t)). rewrite search_unfold.
  pose proof (H "" (String c pre) eq_refl ltac:(done)) as H0.
  change (String c pre +:+ t) with (String c (pre +:+ t)) in H0. rewrite H0.
  apply IH. intros p1 p2 -> Hne. by apply (H (String c p1) p2).
Qed.

(** In particular over a prefix that does not contain the first character
    of the pattern. *)
Lemma search_skip_lit c pat pre t :
  all_chars (fun x => negb (Ascii.eqb x c)) pre = true ->
  search (Lit c :: pat) (pre +:+ t) = search (Lit c :: pat) t.
Proof.
  intros Hpre. apply search_skip. intros p1 p2 -> Hne.
  rewrite all_chars_app in Hpre. apply andb_true_iff in Hpre as [_ Hp2].
  destruct p2 as [|x p2]; [done |]. simpl in *.
  apply andb_true_iff in Hp2 as [Hx _]. apply negb_true_iff in Hx. by rewrite Hx.
Qed.

End RegexFacts.

Module StatsFacts.
Import Text Regex Stats Spec TextFacts RegexFacts.

Lemma stops_digit_after_spaces ws rest :
  all_chars is_space ws = true -> stops is_digit rest = true ->
  stops is_digit (ws +:+ rest) = true.
Proof.
  destruct ws as [|c ws]; simpl; [done |].
  intros [Hc _]%andb_true_iff _. by rewrite (space_not_digit c Hc).
Qed.

Lemma off_def_pattern_eq :
  off_def_pattern
  = lits "Off:" ++ Group is_digit :: Star is_space :: lits "Def:" ++ [Group is_digit].
Proof. reflexivity. Qed.

Lemma filename_pattern_eq :
  filename_pattern
  = lits "Off" ++ Group is_digit :: lits "_Def" ++ Group is_digit
      :: lits "_Total" ++ [Group is_digit].
Proof. reflexivity. Qed.

Lemma match_last_group g post :
  number g -> stops is_digit post = true ->
  match_here [Group is_digit] (g +:+ post) = Some [g].
Proof. intros [Hne Hg] Hpost. by apply match_group_run. Qed.

(** The description pattern at the start of a text *)

Lemma off_def_complete g1 ws g2 post :
  number g1 -> all_chars is_space ws = true -> number g2 ->
  stops is_digit post = true ->
  match_here off_def_pattern ("Off:" +:+ g1 +:+ ws +:+ "Def:" +:+ g2 +:+ post)
  = Some [g1; g2].
Proof.
  intros [Hne1 Hg1] Hws Hg2 Hpost.
  rewrite off_def_pattern_eq, match_lits_run.
  apply match_group_run; [done.. | by apply stops_digit_after_spaces |].
  apply match_star_run; [done.. |].
  rewrite match_lits_run. by apply match_last_group.
Qed.

Lemma off_def_sound t gs :
  match_here off_def_pattern t = Some gs ->
  exists g1 g2, gs = [g1; g2] /\ labeled_pair_at t g1 g2.
Proof.
  rewrite off_def_pattern_eq. intros H.
  apply match_lits_sound in H as (s1 & -> & H).
  apply match_group_sound in H as (g1 & r1 & gs1 & -> & Hne1 & Hg1 & -> & H).
  apply match_star_sound in H as (ws & r2 & -> & Hws & H).
  apply match_lits_sound in H as (s3 & -> & H).
  apply match_group_sound in H as (g2 & post & gs2 & -> & Hne2 & Hg2 & -> & H).
  injection H as <-. exists g1, g2. split; [done |]. by exists ws, post.
Qed.

Lemma off_def_needs_off t gs :
  match_here off_def_pattern t = Some gs -> exists t', t = "Off:" +:+ t'.
Proof.
  intros (g1 & g2 & _ & ws & post & -> & _)%off_def_sound. eauto.
Qed.

(** The file-name pattern at the start of a text *)

Lemma filename_complete g1 g2 g3 post :
  number g1 -> number g2 -> number g3 -> stops is_digit post = true ->
  match_here filename_pattern
    ("Off" +:+ g1 +:+ "_Def" +:+ g2 +:+ "_Total" +:+ g3 +:+ post)
  = Some [g1; g2; g3].
Proof.
  intros [Hne1 Hg1] [Hne2 Hg2] Hg3 Hpost.
  rewrite filename_pattern_eq, match_lits_run.
  apply match_group_run; [done.. |].
  rewrite match_lits_run.
  apply match_group_run; [done.. |].
  rewrite match_lits_run. by apply match_last_group.
Qed.

Lemma filename_sound t gs :
  match_here filename_pattern t = Some gs ->
  exists g1 g2 g3, gs = [g1; g2; g3] /\ number g1 /\ number g2 /\ number g3.
Proof.
  rewrite filename_pattern_eq. intros H.
  apply match_lits_sound in H as (s1 & -> & H).
  apply match_group_sound in H as (g1 & r1 & gs1 & -> & Hne1 & Hg1 & -> & H).
  apply match_lits_sound in H as (s2 & -> & H).
  apply match_group_sound in H as (g2 & r2 & gs2 & -> & Hne2 & Hg2 & -> & H).
  apply match_lits_sound in H as (s3 & -> & H).
  apply match_group_sound in H as (g3 & post & gs3 & -> & Hne3 & Hg3 & -> & H).
  injection H as <-. by exists g1, g2, g3.
Qed.

(** What [filename_stats] reads is always three numbers. *)
Lemma filename_stats_sound name off deff tot :
  filename_stats name = Some (off, deff, tot) ->
  number off /\ number deff /\ number tot.
Proof.
  unfold filename_stats. intros H.
  destruct (search filename_pattern name) as [gs|] eqn:Hs; [|discriminate].
  apply search_sound in Hs as (pre & t & -> & Hm).
  apply filename_sound in Hm as (g1 & g2 & g3 & -> & ?).
  by injection H as <- <- <-.
Qed.

Lemma number_str z : 0 <= z -> number (str z).
Proof.
  intros H. rewrite str_nonneg by done. split;
    [apply str_N_nonempty | apply str_N_digits].
Qed.

Lemma all_chars_impl (p q : ascii -> bool) s :
  (forall c, p c = true -> q c = true) ->
  all_chars p s = true -> all_chars q s = true.
Proof.
  intros Hpq. induction s as [|c s IH]; simpl; [done |].
  intros [Hc Hs]%andb_true_iff. by rewrite (Hpq c Hc), IH.
Qed.

Lemma digit_not_O c : is_digit c = true -> not_O c = true.
Proof. destruct c as [[] [] [] [] [] [] [] []]; vm_compute; congruence. Qed.

Lemma str_not_O z : all_chars not_O (str z) = true.
Proof.
  unfold str. destruct (z <? 0); simpl;
    apply (all_chars_impl is_digit); auto using digit_not_O, str_N_digits.
Qed.

(** Reading back a name built around [Off<g1>_Def<g2>_Total<g3>] after a
    prefix without a capital O. *)
Lemma filename_stats_built pre g1 g2 g3 post :
  all_chars not_O pre = true ->
  number g1 -> number g2 -> number g3 -> stops is_digit post = true ->
  filename_stats (pre +:+ "Off" +:+ g1 +:+ "_Def" +:+ g2 +:+ "_Total" +:+ g3 +:+ post)
  = Some (g1, g2, g3).
Proof.
  intros Hpre H1 H2 H3 Hpost. unfold filename_stats.
  rewrite filename_pattern_eq.
  change (lits "Off" ++ ?p) with (Lit "O" :: lits "ff" ++ p).
  rewrite search_skip_lit by exact Hpre.
  change (Lit "O" :: lits "ff" ++ ?p) with (lits "Off" ++ p).
  rewrite <- filename_pattern_eq.
  by rewrite (search_hit _ _ _ (filename_complete g1 g2 g3 post H1 H2 H3 Hpost)).
Qed.

Lemma clip_prefix_not_O k : all_chars not_O ("processed_clip_" +:+ str k +:+ "_") = true.
Proof.
  rewrite all_chars_app. change (all_chars not_O "processed_clip_") with true.
  rewrite all_chars_app, str_not_O. reflexivity.
Qed.

(** The name [replace_clip] builds encodes the statistics it was given. *)
Lemma filename_stats_replacement k off deff :
  number off -> number deff ->
  filename_stats (replacement_name k off deff)
  = Some (off, deff, str (int_of_digits off + int_of_digits deff)).
Proof.
  intros Hoff Hdeff. unfold replacement_name.
  pose proof (int_of_digits_nonneg off). pose proof (int_of_digits_nonneg deff).
  rewrite <- (filename_stats_built ("processed_clip_" +:+ str k +:+ "_")
                off deff (str (int_of_digits off + int_of_digits deff)) ".mp4");
    [| apply clip_prefix_not_O | done | done | apply number_str; lia | reflexivity].
  f_equal. by rewrite !sapp_assoc.
Qed.

(** The name [main] builds encodes the statistics of its event. *)
Lemma filename_stats_processed idx off deff :
  0 <= off -> 0 <= deff ->
  filename_stats (processed_name idx off deff)
  = Some (str off, str deff, str (off + deff)).
Proof.
  intros Hoff Hdeff. unfold processed_name, clip_name.
  rewrite <- (filename_stats_built ("processed_clip_" +:+ str idx +:+ "_")
                (str off) (str deff) (str (off + deff)) ".mp4");
    [| apply clip_prefix_not_O | apply number_str; lia.. | reflexivity].
  f_equal. by rewrite !sapp_assoc.
Qed.

End StatsFacts.

Module ExtractFacts.
Import Text Regex Stats Spec TextFacts RegexFacts StatsFacts.

Lemma starts_with_spec p s :
  starts_with p s = true <-> exists post, s = p +:+ post.
Proof.
  revert s. induction p as [|a p IH]; intros s; simpl.
  - split; [by exists s | done].
  - destruct s as [|b s]; [split; [done | by intros [? ?]] |].
    rewrite andb_true_iff, IH. split.
    + intros [Hab [post ->]]. apply Ascii.eqb_eq in Hab as ->. by exists post.
    + intros [post [= -> ->]]. split; [apply Ascii.eqb_refl | by exists post].
Qed.

(** [occurs_in] decides [contains]. *)
Lemma occurs_in_spec p s : occurs_in p s = true <-> contains p s.
Proof.
  induction s as [|c s IH]; simpl.
  - rewrite orb_false_r, starts_with_spec. split.
    + intros [post H]. by exists "", post.
    + intros ([|? ?] & post & H); [by exists post | discriminate].
  - rewrite orb_true_iff, starts_with_spec, IH. split.
    + intros [[post H] | (pre & post & ->)].
      * by exists "", post.
      * by exists (String c pre), post.
    + intros ([|x pre] & post & H).
      * left. by exists post.
      * right. injection H as -> ->. by exists pre, post.
Qed.

Lemma occurs_in_suffix p a b : occurs_in p (a +:+ b) = false -> occurs_in p b = false.
Proof.
  induction a as [|c a IH]; [done |].
  change (String c a +:+ b) with (String c (a +:+ b)).
  simpl. intros [_ H]%orb_false_iff. by apply IH.
Qed.

Lemma occurs_in_here p s : occurs_in p s = false -> starts_with p s = false.
Proof. destruct s; simpl; by intros [H _]%orb_false_iff. Qed.

(** If [Off:] does not occur in [pre +:+ "Off"], no suffix that starts
    inside [pre] starts with [Off:]. *)
Lemma first_off pre p1 p2 rest t' :
  occurs_in "Off:" (pre +:+ "Off") = false ->
  pre = p1 +:+ p2 -> p2 <> "" ->
  p2 +:+ "Off:" +:+ rest <> "Off:" +:+ t'.
Proof.
  intros Hocc -> Hne Heq. rewrite sapp_assoc in Hocc.
  apply occurs_in_suffix, occurs_in_here in Hocc.
  destruct p2 as [|a [|b [|c [|d p2]]]]; [done | simplify_eq/=..].
Qed.

Lemma extract_first_occurrence pre g1 ws g2 post :
  occurs_in "Off:" (pre +:+ "Off") = false ->
  number g1 -> all_chars is_space ws = true -> number g2 ->
  stops is_digit post = true ->
  extract_off_def (pre +:+ "Off:" +:+ g1 +:+ ws +:+ "Def:" +:+ g2 +:+ post)
  = (Some (int_of_digits g1), Some (int_of_digits g2)).
Proof.
  intros Hpre H1 Hws H2 Hpost. unfold extract_off_def.
  rewrite search_skip.
  - by rewrite (search_hit _ _ _ (off_def_complete g1 ws g2 post H1 Hws H2 Hpost)).
  - intros p1 p2 Hsplit Hne.
    destruct (match_here off_def_pattern _) as [gs|] eqn:E; [|reflexivity].
    apply off_def_needs_off in E as [t' E].
    by destruct (first_off pre p1 p2 _ t' Hpre Hsplit Hne E).
Qed.

Lemma extract_shape d :
  extract_off_def d = (None, None)
  \/ exists g1 g2 pre t,
       search off_def_pattern d = Some [g1; g2]
       /\ d = pre +:+ t /\ labeled_pair_at t g1 g2
       /\ extract_off_def d = (Some (int_of_digits g1), Some (int_of_digits g2)).
Proof.
  unfold extract_off_def.
  destruct (search off_def_pattern d) as [gs|] eqn:Hs; [|by left].
  pose proof Hs as (pre & t & -> & Hm)%search_sound.
  apply off_def_sound in Hm as (g1 & g2 & -> & Hl).
  right. by exists g1, g2, pre, t.
Qed.

Lemma extract_none_iff d :
  extract_off_def d = (None, None) <-> ~ has_labeled_pair d.
Proof.
  split.
  - intros Hnone (pre & t & g1 & g2 & -> & ws & post & -> & H1 & Hws & H2).
    destruct (span_exists is_digit post) as (more & post' & -> & Hmore & Hpost').
    assert (number (g2 +:+ more)) as H2'.
    { destruct H2 as [Hne Hg2]. split.
      - destruct g2; [done | discriminate].
      - by rewrite all_chars_app, Hg2, Hmore. }
    pose proof (off_def_complete g1 ws (g2 +:+ more) post' H1 Hws H2' Hpost') as Hm.
    rewrite sapp_assoc in Hm.
    destruct (search_complete _ pre _ _ Hm) as [gs Hs].
    destruct (extract_shape (pre +:+ "Off:" +:+ g1 +:+ ws +:+ "Def:" +:+ g2 +:+ more +:+ post'))
      as [Hn | (a & b & _ & _ & _ & _ & _ & Hsome)]; [|congruence].
    unfold extract_off_def in Hn. rewrite Hs in Hn.
    apply search_sound in Hs as (pre' & t' & _ & Hm').
    apply off_def_sound in Hm' as (a & b & -> & _). discriminate.
  - intros Hno. destruct (extract_shape d) as [Hn | (g1 & g2 & pre & t & _ & -> & Hl & _)];
      [done |].
    destruct Hno. by exists pre, t, g1, g2.
Qed.

Lemma labeled_pair_contains d :
  has_labeled_pair d -> contains "Off:" d /\ contains "Def:" d.
Proof.
  intros (pre & t & g1 & g2 & -> & ws & post & -> & _). split.
  - by exists pre, (g1 +:+ ws +:+ "Def:" +:+ g2 +:+ post).
  - exists (pre +:+ "Off:" +:+ g1 +:+ ws), (g2 +:+ post).
    rewrite !sapp_assoc. simpl. by rewrite ?sapp_assoc.
Qed.

End ExtractFacts.

Module ExtractTheorems.
Import Text Regex Stats Spec TextFacts RegexFacts StatsFacts ExtractFacts.




End ExtractTheorems.

Module SysFacts.
Import Sys Spec.

Lemma bind_ok {A B} (m : M A) (k : A -> M B) w a w' :
  m w = (Ok a, w') -> bind m k w = k a w'.
Proof. unfold bind. by intros ->. Qed.

Lemma bind_raise {A B} (m : M A) (k : A -> M B) w e w' :
  m w = (Raise e, w') -> bind m k w = (Raise e, w').
Proof. unfold bind. by intros ->. Qed.

Lemma add_logs_nil w : add_logs [] w = w.
Proof. destruct w. unfold add_logs. simpl. by rewrite app_nil_r. Qed.

Lemma add_logs_app a b w : add_logs b (add_logs a w) = add_logs (a ++ b) w.
Proof. unfold add_logs. simpl. by rewrite app_assoc. Qed.

Lemma add_log_add_logs e w : add_log e w = add_logs [e] w.
Proof. reflexivity. Qed.

Lemma resources_app a b h :
  resources (a ++ b) h = resources a h ≫= resources b.
Proof.
  revert h. induction a as [|e a IH]; intros h; simpl; [done |].
  destruct (resource_step h e); [apply IH | done].
Qed.

Lemma count_eff_app p a b :
  count_eff p (a ++ b) = (count_eff p a + count_eff p b)%nat.
Proof. induction a as [|e a IH]; simpl; [done |]. rewrite IH. lia. Qed.

Lemma existsb_app' (p : Effect -> bool) a b :
  existsb p (a ++ b) = existsb p a || existsb p b.
Proof. induction a as [|e a IH]; simpl; [done |]. by rewrite IH, orb_assoc. Qed.

End SysFacts.

(** Equal worlds: same fields, the logs up to re-association. *)
Ltac world_eq :=
  repeat match goal with w : Sys.World |- _ => destruct w end;
  unfold Sys.set_fs, Sys.add_log, Spec.add_logs, Sys.next_session, Sys.next_run;
  simpl; rewrite <- ?app_assoc, ?app_nil_r; simpl; try reflexivity.

Ltac close_case :=
  simpl; split_and!; simpl; eauto; try done; try (intros; discriminate).

Module RetrieverFacts.
Import Text Sys Spec Retriever SysFacts.

Lemma load_page_spec p url attempts w :
  exists b evs,
    load_page p url attempts w = (Ok b, add_logs evs w)
    /\ resources evs (InSession true) = Some (InSession b)
    /\ count_eff is_start evs = 0%nat
    /\ count_eff is_stop evs = 0%nat
    /\ count_eff is_launch evs = 0%nat
    /\ existsb is_failure_report evs = negb b
    /\ existsb is_success_report evs = false.
Proof.
  revert w. induction attempts as [|a rest IH]; intros w.
  - exists true, []. by rewrite add_logs_nil.
  - simpl. unfold bind, print, emit, ret.
    destruct (goto_ok p a); [destruct (selector_ok p a) |
                             destruct (a <? 4)%nat].
    + exists true, [Print (MsgAttempt (a + 1)); PageGoto url; WaitSelector].
      split; [f_equal; world_eq | done].
    + exists false, [Print (MsgAttempt (a + 1)); PageGoto url; WaitSelector;
                     Print MsgErrorWaitingForVideo; BrowserClose].
      split; [f_equal; world_eq | done].
    + match goal with
      | |- context [load_page p url rest ?w'] =>
          destruct (IH w') as (b & evs & -> & Hres & H1 & H2 & H3 & H4 & H5)
      end.
      exists b, ([Print (MsgAttempt (a + 1)); PageGoto url; Print MsgErrorLoadingPage;
                  Print MsgRetrying; Sleep] ++ evs).
      split; [f_equal; world_eq |]. by simpl.
    + exists false, [Print (MsgAttempt (a + 1)); PageGoto url;
                     Print MsgErrorLoadingPage; Print MsgMaxRetries; BrowserClose].
      split; [f_equal; world_eq | done].
Qed.

Lemma write_chunks_spec path cs b w :
  write_chunks path cs (set_fs (insert path b) w)
  = (Ok tt, set_fs (insert path (b ++ concat cs)) w).
Proof.
  revert b. induction cs as [|c cs IH]; intros b; simpl.
  - by rewrite app_nil_r.
  - unfold bind, append_file. simpl. rewrite lookup_insert_eq. simpl.
    replace (set_fs _ (set_fs _ w)) with (set_fs (insert path (b ++ c)) w).
    + rewrite IH. by rewrite <- app_assoc.
    + destruct w. unfold set_fs. simpl. by rewrite insert_insert_eq.
Qed.

(** What one pass through the body of the [with] block does. *)
Lemma session_body_spec p url file w :
  exists r F evs,
    session_body p url file w = (r, set_fs (fun _ => F) (add_logs evs w))
    /\ (exists b, resources evs (InSession false) = Some (InSession b))
    /\ count_eff is_start evs = 0%nat
    /\ count_eff is_stop evs = 0%nat
    /\ count_eff is_launch evs = (if launch_ok p then 1 else 0)%nat
    /\ (existsb is_success_report evs = true ->
        r = Ok tt /\ In (Print (MsgDownloadCompleted file)) evs
        /\ exists resp, response p = Some resp
             /\ F = <[file := concat (chunks resp)]> (fs w))
    /\ (existsb is_failure_report evs = true -> r = Ok tt /\ F = fs w).
Proof.
  unfold session_body.
  destruct (launch_ok p) eqn:Hlaunch.
  2:{ exists (Raise PlaywrightError), (fs w), [].
      split; [unfold bind, raise; f_equal; world_eq | close_case]. }
  unfold bind at 1. unfold emit at 1.
  destruct (load_page_spec p url (seq 0 max_retries) (add_log BrowserLaunch w))
    as (b & evs & Hload & Hres & H1 & H2 & H3 & H4 & H5).
  rewrite (bind_ok _ _ _ _ _ Hload).
  destruct b; simpl.
  2:{ exists (Ok tt), (fs w), (BrowserLaunch :: evs).
      split; [unfold ret; f_equal; world_eq |]. simpl.
      rewrite Hres, H1, H2, H3, H4, H5. close_case. }
  destruct (video_src p) as [[|c src]|].
  1,3: exists (Raise VideoSourceNotFound), (fs w), (BrowserLaunch :: evs);
       (split; [unfold raise; f_equal; world_eq |]); simpl;
       rewrite Hres, H1, H2, H3, H4, H5; close_case.
  unfold bind, print, emit, raise, ret. simpl.
  destruct (response p) as [resp|].
  2:{ exists (Raise RequestException), (fs w),
        (BrowserLaunch :: evs ++ [Print (MsgVideoSourceUrl (String c src));
                                  HttpGet (String c src)]).
      split; [f_equal; world_eq |]. simpl.
      rewrite resources_app, !count_eff_app, !existsb_app', Hres, H1, H2, H3, H4, H5.
      close_case. }
  destruct (status_code resp =? 200).
  - unfold create_file.
    rewrite write_chunks_spec. simpl.
    destruct (stream_ok resp).
    + exists (Ok tt), (<[file := concat (chunks resp)]> (fs w)),
        (BrowserLaunch :: evs ++ [Print (MsgVideoSourceUrl (String c src));
                                  HttpGet (String c src);
                                  Print (MsgDownloadCompleted file); BrowserClose]).
      split; [f_equal; world_eq |]. simpl.
      rewrite resources_app, !count_eff_app, !existsb_app', Hres, H1, H2, H3, H4, H5.
      close_case. intros _. split_and!; [done | | by eauto].
      right. apply in_or_app. right. simpl. tauto.
    + exists (Raise RequestException), (<[file := concat (chunks resp)]> (fs w)),
        (BrowserLaunch :: evs ++ [Print (MsgVideoSourceUrl (String c src));
                                  HttpGet (String c src)]).
      split; [f_equal; world_eq |]. simpl.
      rewrite resources_app, !count_eff_app, !existsb_app', Hres, H1, H2, H3, H4, H5.
      close_case.
  - exists (Ok tt), (fs w),
      (BrowserLaunch :: evs ++ [Print (MsgVideoSourceUrl (String c src));
                                HttpGet (String c src);
                                Print (MsgFailedToDownload (status_code resp));
                                BrowserClose]).
    split; [f_equal; world_eq |]. simpl.
    rewrite resources_app, !count_eff_app, !existsb_app', Hres, H1, H2, H3, H4, H5.
    close_case.
Qed.

End RetrieverFacts.

Module DownloadFacts.
Import Text Sys Spec Retriever SysFacts RetrieverFacts.

(** The whole call: the session is started, the body runs, the session is
    stopped whatever the body did. *)
Lemma download_spec url file w :
  exists r F evs,
    download_video_from_page url file w
    = (r, set_fs (fun _ => F) (next_session (add_logs evs w)))
    /\ resources evs Idle = Some Idle
    /\ count_eff is_start evs = 1%nat
    /\ count_eff is_stop evs = 1%nat
    /\ count_eff is_launch evs
       = (if launch_ok (net w (sessions w)) then 1 else 0)%nat
    /\ (existsb is_success_report evs = true ->
        r = Ok tt /\ In (Print (MsgDownloadCompleted file)) evs
        /\ exists resp, response (net w (sessions w)) = Some resp
             /\ F = <[file := concat (chunks resp)]> (fs w))
    /\ (existsb is_failure_report evs = true -> r = Ok tt /\ F = fs w).
Proof.
  unfold download_video_from_page, bind, get_world, emit, finally.
  destruct (session_body_spec (net w (sessions w)) url file
              (next_session (add_log PlaywrightStart w)))
    as (r & F & evs & -> & [b Hres] & H1 & H2 & H3 & Hok & Hfail).
  exists r, F, (PlaywrightStart :: evs ++ [PlaywrightStop]).
  split; [f_equal; world_eq |].
  simpl. rewrite resources_app, !count_eff_app, !existsb_app', Hres, H1, H2, H3.
  simpl. rewrite !orb_false_r.
  split_and!; [done | done | lia | lia | |done].
  intros (? & Hin & ?)%Hok. split_and!; [done | | done].
  right. apply in_or_app. by left.
Qed.

End DownloadFacts.

Module RetrieverTheorems.
Import Text Sys Spec Retriever SysFacts RetrieverFacts DownloadFacts.

(** C7.  In every call of [download_video_from_page] the Playwright session
    is started exactly once and stopped exactly once, the browser is launched
    at most once (once when the launch succeeds), and on every way out of
    the call, a normal return or any exception, neither the session nor a
    browser is still held. *)
Theorem download_releases_browser_session url file w :
  exists evs,
    log (snd (download_video_from_page url file w)) = log w ++ evs
    /\ count_eff is_start evs = 1%nat
    /\ count_eff is_stop evs = 1%nat
    /\ count_eff is_launch evs = (if launch_ok (net w (sessions w)) then 1 else 0)%nat
    /\ resources evs Idle = Some Idle.
Proof.
  destruct (download_spec url file w) as (r & F & evs & -> & Hres & H1 & H2 & H3 & _).
  exists evs. by split_and!.
Qed.


End RetrieverTheorems.

Module ToolsFacts.
Import Text Sys Spec Tools SysFacts.

Lemma list_byte_of_string_app a b :
  list_byte_of_string (a +:+ b) = list_byte_of_string a ++ list_byte_of_string b.
Proof.
  unfold list_byte_of_string.
  induction a as [|c a IH]; simpl; [done | by rewrite IH].
Qed.

Lemma write_lines_spec path abs video_files b w :
  write_lines path (map (fun video => manifest_line (abs video)) video_files)
    (set_fs (insert path b) w)
  = (Ok tt, set_fs (insert path (b ++ list_byte_of_string (manifest_text abs video_files))) w).
Proof.
  revert b. induction video_files as [|v vs IH]; intros b.
  - simpl. by rewrite app_nil_r.
  - cbn [map write_lines manifest_text foldr].
    unfold bind, append_file. simpl fs. rewrite lookup_insert_eq. simpl default.
    replace (set_fs _ (set_fs _ w))
      with (set_fs (insert path (b ++ list_byte_of_string (manifest_line (abs v)))) w).
    + rewrite IH. fold (manifest_text abs vs).
      by rewrite list_byte_of_string_app, app_assoc.
    + destruct w. unfold set_fs. simpl. by rewrite insert_insert_eq.
Qed.

Lemma write_manifest_spec video_files w :
  write_manifest video_files w
  = (Ok tt, set_fs (insert manifest_path
                      (list_byte_of_string (manifest_text (abspath w) video_files))) w).
Proof.
  unfold write_manifest, bind, get_world, create_file.
  apply (write_lines_spec manifest_path (abspath w) video_files [] w).
Qed.

Lemma run_concat_spec output w :
  exists r evs,
    run_concat output w
    = (r, set_fs (tool_writes output (ffmpeg w (runs w))) (next_run (add_logs evs w)))
    /\ (r = Ok tt \/ r = Raise OSError).
Proof.
  unfold run_concat, subprocess_run, bind, get_world, emit, raise, ret, print, emit, write_file.
  destruct (ffmpeg w (runs w)) as [rc [b|] err|]; simpl.
  1,2: destruct (rc =? 0).
  - exists (Ok tt), [Run (concat_command output); Print (MsgCreatedFinalVideo output)].
    split; [f_equal; world_eq | by left].
  - exists (Ok tt), [Run (concat_command output); Print (MsgErrorConcatenating output)].
    split; [f_equal; world_eq | by left].
  - exists (Ok tt), [Run (concat_command output); Print (MsgCreatedFinalVideo output)].
    split; [f_equal; world_eq | by left].
  - exists (Ok tt), [Run (concat_command output); Print (MsgErrorConcatenating output)].
    split; [f_equal; world_eq | by left].
  - exists (Raise OSError), [Run (concat_command output)].
    split; [f_equal; world_eq | by right].
Qed.

Lemma tool_writes_keeps output t (m : gmap string bytes) v :
  is_Some (m !! v) -> is_Some (tool_writes output t m !! v).
Proof.
  intros Hv. destruct t as [rc [b|] err|]; simpl; try done.
  destruct (decide (output = v)) as [->|Hne].
  - rewrite lookup_insert_eq. by eexists.
  - by rewrite lookup_insert_ne.
Qed.

Lemma tool_writes_other output t (m : gmap string bytes) v :
  v <> output -> tool_writes output t m !! v = m !! v.
Proof.
  intros Hv. destruct t as [rc [b|] err|]; simpl; try done.
  by rewrite lookup_insert_ne.
Qed.

Lemma concatenate_videos_spec video_files output w :
  let manifest := list_byte_of_string (manifest_text (abspath w) video_files) in
  exists r evs,
    concatenate_videos video_files output w
    = (r, set_fs (fun m => delete manifest_path
                             (tool_writes output (ffmpeg w (runs w))
                                (<[manifest_path := manifest]> m)))
            (next_run (add_logs evs w)))
    /\ (r = Ok tt \/ r = Raise OSError).
Proof.
  intros manifest. unfold concatenate_videos.
  rewrite (bind_ok _ _ _ _ _ (write_manifest_spec video_files w)).
  fold manifest. unfold finally.
  destruct (run_concat_spec output (set_fs (insert manifest_path manifest) w))
    as (r & evs & -> & Hr).
  unfold os_remove.
  assert (is_Some (tool_writes output (ffmpeg w (runs w))
                     (<[manifest_path := manifest]> (fs w)) !! manifest_path)) as [b Hb].
  { apply tool_writes_keeps. rewrite lookup_insert_eq. by eexists. }
  simpl. rewrite Hb.
  exists r, evs. split; [f_equal; world_eq | done].
Qed.

End ToolsFacts.

Module ConcatenatorTheorems.
Import Text Sys Spec Tools SysFacts ToolsFacts Examples.


End ConcatenatorTheorems.

Module ReplacementFacts.
Import Text Stats Sys Spec Retriever Tools Replacement.
Import TextFacts StatsFacts SysFacts DownloadFacts ToolsFacts.

Lemma bind_inv {A B} (m : M A) (k : A -> M B) w b w' :
  bind m k w = (Ok b, w') ->
  exists a w1, m w = (Ok a, w1) /\ k a w1 = (Ok b, w').
Proof.
  unfold bind. destruct (m w) as [[a|e] w1]; [|discriminate]. eauto.
Qed.

Lemma ret_inv {A} (a b : A) w w' : ret a w = (Ok b, w') -> a = b /\ w = w'.
Proof. unfold ret. by intros [= -> ->]. Qed.

Lemma py_index_valid (l : list string) k :
  0 <= k < Z.of_nat (length l) -> py_index l k = Some (Z.to_nat k).
Proof.
  intros [H0 H1]. unfold py_index.
  destruct (Z.leb_spec 0 k); [|lia]. destruct (Z.ltb_spec k (Z.of_nat (length l))); [|lia].
  reflexivity.
Qed.

Lemma overlay_spec input output text w :
  exists r evs,
    overlay_text_on_video input output text w
    = (r, set_fs (tool_writes output (ffmpeg w (runs w))) (next_run (add_logs evs w)))
    /\ (r = Ok tt \/ r = Raise OSError).
Proof.
  unfold overlay_text_on_video, subprocess_run, bind, get_world, emit, raise, ret, print,
    emit, write_file.
  destruct (ffmpeg w (runs w)) as [rc [b|] err|]; simpl.
  1,2: destruct (rc =? 0).
  - exists (Ok tt), [Run (overlay_command input output text); Print (MsgOverlayed output)].
    split; [f_equal; world_eq | by left].
  - exists (Ok tt), [Run (overlay_command input output text);
                     Print (MsgErrorOverlaying output); Print (MsgFfmpegErrorOutput err)].
    split; [f_equal; world_eq | by left].
  - exists (Ok tt), [Run (overlay_command input output text); Print (MsgOverlayed output)].
    split; [f_equal; world_eq | by left].
  - exists (Ok tt), [Run (overlay_command input output text);
                     Print (MsgErrorOverlaying output); Print (MsgFfmpegErrorOutput err)].
    split; [f_equal; world_eq | by left].
  - exists (Raise OSError), [Run (overlay_command input output text)].
    split; [f_equal; world_eq | by right].
Qed.

(** The steps of [replace_clip] once the name has been read. *)
Lemma replace_clip_eq clip_number new_url video_files w pos name :
  py_index video_files clip_number = Some pos ->
  video_files !! pos = Some name ->
  replace_clip clip_number new_url video_files w
  = match filename_stats name with
    | None => (print (MsgCouldNotFindStats name) ;; ret video_files) w
    | Some (off, deff, _) =>
        (print (MsgDownloadingReplacement clip_number) ;;
         download_video_from_page new_url (temp_clip_name clip_number) ;;
         print (MsgApplyingOverlay clip_number) ;;
         overlay_text_on_video (temp_clip_name clip_number)
           (replacement_name clip_number off deff) (overlay_text off deff) ;;
         print (MsgReplacementCompleted clip_number) ;;
         ret (<[pos := replacement_name clip_number off deff]> video_files)) w
    end.
Proof.
  intros Hidx Hname. unfold replace_clip. rewrite Hidx, Hname. simpl.
  by destruct (filename_stats name) as [[[off deff] tot]|].
Qed.

Lemma replace_clip_result clip_number new_url video_files w pos name files' w' :
  py_index video_files clip_number = Some pos ->
  video_files !! pos = Some name ->
  replace_clip clip_number new_url video_files w = (Ok files', w') ->
  match filename_stats name with
  | None => files' = video_files
  | Some (off, deff, _) =>
      files' = <[pos := replacement_name clip_number off deff]> video_files
  end.
Proof.
  intros Hidx Hname. rewrite (replace_clip_eq _ _ _ _ _ _ Hidx Hname).
  destruct (filename_stats name) as [[[off deff] tot]|]; intros H.
  - apply bind_inv in H as (? & ? & _ & H).
    apply bind_inv in H as (? & ? & _ & H).
    apply bind_inv in H as (? & ? & _ & H).
    apply bind_inv in H as (? & ? & _ & H).
    apply bind_inv in H as (? & ? & _ & H).
    by apply ret_inv in H as [<- _].
  - apply bind_inv in H as (? & ? & _ & H). by apply ret_inv in H as [<- _].
Qed.

End ReplacementFacts.

Module ReplaceTheorems.
Import Text Stats Sys Spec Retriever Tools Replacement.
Import TextFacts StatsFacts SysFacts ReplacementFacts Examples.

(** C4.  A replacement at a valid position [k] leaves the list as long as
    it was and leaves every other position with the very name it had; and
    when the name at [k] encoded [Off], [Def] and [Total], the new name at
    [k] encodes the same [Off] and the same [Def], and a [Total] that is
    their sum. *)
Theorem replace_clip_changes_only_k clip_number new_url video_files w files' w' :
  0 <= clip_number < Z.of_nat (length video_files) ->
  replace_clip clip_number new_url video_files w = (Ok files', w') ->
  let k := Z.to_nat clip_number in
  length files' = length video_files
  /\ (forall j, j <> k -> files' !! j = video_files !! j)
  /\ (forall name off deff total,
        video_files !! k = Some name ->
        filename_stats name = Some (off, deff, total) ->
        exists name',
          files' !! k = Some name'
          /\ filename_stats name'
             = Some (off, deff, str (int_of_digits off + int_of_digits deff))
          /\ int_of_digits (str (int_of_digits off + int_of_digits deff))
             = int_of_digits off + int_of_digits deff).
Proof.
  intros Hk Hrun k.
  assert (k < length video_files)%nat as Hlt by (subst k; lia).
  destruct (lookup_lt_is_Some_2 video_files k Hlt) as [name Hname].
  pose proof (replace_clip_result _ _ _ _ _ _ _ _ (py_index_valid _ _ Hk) Hname Hrun) as Hres.
  destruct (filename_stats name) as [[[off deff] tot]|] eqn:Hstats.
  - subst files'. split_and!.
    + apply length_insert.
    + intros j Hj. by apply list_lookup_insert_ne.
    + intros name0 off0 deff0 total0 Hname0 Hstats0.
      assert (name0 = name) as -> by congruence.
      assert (off0 = off /\ deff0 = deff) as [-> ->] by (split; congruence).
      apply filename_stats_sound in Hstats as (Hoff & Hdeff & _).
      exists (replacement_name clip_number off deff). split_and!.
      * by apply list_lookup_insert_eq.
      * by apply filename_stats_replacement.
      * apply int_of_digits_str.
        pose proof (int_of_digits_nonneg off). pose proof (int_of_digits_nonneg deff). lia.
  - subst files'. split_and!; [done | done |].
    intros name0 off0 deff0 total0 Hname0 Hstats0. congruence.
Qed.

(** The clip at position 1 of 3 came from event 4; its replacement is named
    after the position and keeps [Off0] and [Def3]. *)
Lemma replace_clip_changes_only_k_witness :
  let video_files := ["processed_clip_0_Off2_Def1_Total3.mp4";
                      "processed_clip_4_Off0_Def3_Total3.mp4";
                      "processed_clip_5_Off1_Def0_Total1.mp4"] in
  let run := replace_clip 1 "https://www.nba.com/stats/events" video_files good_world in
  exists files',
    fst run = Ok files'
    /\ files' !! 1%nat = Some "processed_clip_1_Off0_Def3_Total3.mp4"
    /\ length files' = length video_files
    /\ (forall j, j <> 1%nat -> files' !! j = video_files !! j)
    /\ (forall name off deff total,
          video_files !! 1%nat = Some name ->
          filename_stats name = Some (off, deff, total) ->
          exists name',
            files' !! 1%nat = Some name'
            /\ filename_stats name'
               = Some (off, deff, str (int_of_digits off + int_of_digits deff))
            /\ int_of_digits (str (int_of_digits off + int_of_digits deff))
               = int_of_digits off + int_of_digits deff).
Proof.
  intros video_files run.
  exists ["processed_clip_0_Off2_Def1_Total3.mp4";
          "processed_clip_1_Off0_Def3_Total3.mp4";
          "processed_clip_5_Off1_Def0_Total1.mp4"].
  split; [vm_compute; reflexivity |]. split; [reflexivity |].
  apply (replace_clip_changes_only_k 1 "https://www.nba.com/stats/events" video_files
           good_world _ (snd run)).
  - simpl. lia.
  - vm_compute. reflexivity.
Defined.

(** C10.  When the name at the chosen position does not show the
    [Off..._Def..._Total...] pattern, [replace_clip] returns the list as it
    was; it has printed one diagnostic and has done nothing else: no file
    has changed, no browser session was started and ffmpeg was not run. *)
Theorem replace_clip_without_pattern clip_number new_url video_files w pos name :
  py_index video_files clip_number = Some pos ->
  video_files !! pos = Some name ->
  filename_stats name = None ->
  replace_clip clip_number new_url video_files w
  = (Ok video_files, add_log (Print (MsgCouldNotFindStats name)) w)
  /\ fs (snd (replace_clip clip_number new_url video_files w)) = fs w
  /\ sessions (snd (replace_clip clip_number new_url video_files w)) = sessions w
  /\ runs (snd (replace_clip clip_number new_url video_files w)) = runs w.
Proof.
  intros Hidx Hname Hstats.
  rewrite (replace_clip_eq _ _ _ _ _ _ Hidx Hname), Hstats. by split_and!.
Qed.

Lemma replace_clip_without_pattern_witness :
  replace_clip 1 "https://www.nba.com/stats/events" ["a.mp4"; "intro.mp4"] good_world
  = (Ok ["a.mp4"; "intro.mp4"], add_log (Print (MsgCouldNotFindStats "intro.mp4")) good_world).
Proof.
  apply (replace_clip_without_pattern 1 "https://www.nba.com/stats/events"
           ["a.mp4"; "intro.mp4"] good_world 1%nat "intro.mp4");
    reflexivity.
Defined.

End ReplaceTheorems.

Module SessionFacts.
Import Text Stats Sys Spec Retriever Tools Replacement.
Import SysFacts ReplacementFacts.

Lemma ask_another_consumes st w fl st' w' :
  ask_another st w = (Ok (fl, st'), w') ->
  (length (unread st') < length (unread st))%nat.
Proof.
  unfold ask_another, input, bind, emit, raise, ret.
  destruct (unread st) as [|a rest]; simpl; [discriminate |].
  destruct (negb (says_yes a)); intros [= <- <- <-]; simpl; lia.
Qed.

(** A pass that does not raise has read at least one answer. *)
Lemma iteration_consumes st w fl st' w' :
  iteration st w = (Ok (fl, st'), w') ->
  (length (unread st') < length (unread st))%nat.
Proof.
  unfold iteration. intros H.
  apply bind_inv in H as ([a1 r1] & w1 & Hin1 & H).
  unfold input, bind, emit, raise, ret in Hin1.
  destruct (unread st) as [|x1 rest1]; simpl in Hin1; [discriminate |].
  injection Hin1 as <- <- <-. simpl in H.
  destruct (negb (says_yes x1)).
  { apply ret_inv in H as [[= <- <-] _]. simpl. lia. }
  apply bind_inv in H as ([a2 r2] & w2 & Hin2 & H).
  unfold input, bind, emit, raise, ret in Hin2.
  destruct rest1 as [|x2 rest2]; simpl in Hin2; [discriminate |].
  injection Hin2 as <- <- <-. simpl in H.
  destruct (py_int (strip x2)) as [n|].
  - destruct ((n - 1 <? 0) || (n - 1 >=? Z.of_nat (length (files st)))).
    + apply bind_inv in H as (? & ? & _ & H).
      apply ret_inv in H as [[= <- <-] _]. simpl. lia.
    + apply bind_inv in H as ([a3 r3] & w3 & Hin3 & H).
      unfold input, bind, emit, raise, ret in Hin3.
      destruct rest2 as [|x3 rest3]; simpl in Hin3; [discriminate |].
      injection Hin3 as <- <- <-. simpl in H.
      apply bind_inv in H as (files' & w4 & _ & H).
      apply ask_another_consumes in H. simpl in *. lia.
  - apply bind_inv in H as (? & ? & _ & H).
    apply ask_another_consumes in H. simpl in *. lia.
Qed.

(** The two ways a bad clip number is handled.  Out of range: back to the
    top of the loop.  Not a number: on to the closing question. *)
Lemma iteration_out_of_range st a1 a2 rest n w :
  unread st = a1 :: a2 :: rest -> says_yes a1 = true ->
  py_int (strip a2) = Some n ->
  n - 1 < 0 \/ Z.of_nat (length (files st)) <= n - 1 ->
  iteration st w
  = (Ok (Continue, mkSession (replacements_made st) (files st) rest),
     add_log (Print (MsgInvalidClipNumber (length (files st))))
       (add_log (Ask (AskClipNumber (length (files st))))
          (add_log (Ask AskReplaceAny) w))).
Proof.
  intros Hin Hyes Hint Hrange.
  unfold iteration, input, bind, emit, raise, ret, print, emit.
  rewrite Hin. simpl. rewrite Hyes. simpl. rewrite Hint.
  replace ((n - 1 <? 0) || (n - 1 >=? Z.of_nat (length (files st)))) with true; [done |].
  symmetry. apply orb_true_iff. destruct Hrange; [left | right]; lia.
Qed.

Lemma iteration_not_a_number st a1 a2 rest w :
  unread st = a1 :: a2 :: rest -> says_yes a1 = true ->
  py_int (strip a2) = None ->
  iteration st w
  = ask_another (mkSession (replacements_made st) (files st) rest)
      (add_log (Print MsgInvalidInput)
         (add_log (Ask (AskClipNumber (length (files st))))
            (add_log (Ask AskReplaceAny) w))).
Proof.
  intros Hin Hyes Hint.
  unfold iteration, input, bind, emit, raise, ret, print, emit.
  rewrite Hin. simpl. rewrite Hyes. simpl. by rewrite Hint.
Qed.

Lemma while_true_total fuel st w :
  (length (unread st) < fuel)%nat -> fst (while_true fuel st w) <> Ok None.
Proof.
  revert st w. induction fuel as [|fuel IH]; intros st w Hfuel; [lia |].
  simpl. unfold bind at 1.
  destruct (iteration st w) as [[[fl st']|e] w'] eqn:Hit; simpl; [|discriminate].
  apply iteration_consumes in Hit.
  destruct fl; simpl; [discriminate |]. apply IH. lia.
Qed.

(** The loop of [prompt_for_replacements] always ends within its fuel:
    the session returns or raises ([EOFError] when the answers run out). *)
Lemma prompt_for_replacements_total answers video_files w :
  fst (prompt_for_replacements answers video_files w) <> Ok None.
Proof. apply while_true_total. simpl. lia. Qed.

(** The sibling path: a clip number out of range goes straight back to
    the first question. *)
Example out_of_range_asks_again video_files w :
  prompt_for_replacements ["yes"; "0"; "no"] video_files w
  = (Ok (Some (mkSession false video_files [])),
     add_logs [Ask AskReplaceAny; Ask (AskClipNumber (length video_files));
               Print (MsgInvalidClipNumber (length video_files));
               Ask AskReplaceAny] w).
Proof.
  transitivity
    (Ok (Some (mkSession false video_files [])),
     add_log (Ask AskReplaceAny)
       (add_log (Print (MsgInvalidClipNumber (length video_files)))
          (add_log (Ask (AskClipNumber (length video_files)))
             (add_log (Ask AskReplaceAny) w)))); [reflexivity |].
  f_equal. world_eq.
Qed.

(** [replacements_made] is set after every call of [replace_clip] that
    returns, also after its early return on a name without statistics. *)
Example flag_set_after_early_return w :
  returned (prompt_for_replacements ["yes"; "1"; "https://www.nba.com/stats/events"; "no"]
              ["intro.mp4"] w)
  = Some (Some (mkSession true ["intro.mp4"] [])).
Proof. reflexivity. Qed.

End SessionFacts.

Module SessionTheorems.
Import Text Stats Sys Spec Retriever Tools Replacement.

(** C5, at the input where the code departs from it.  After a non-numeric
    clip number the session does not ask again for a replacement: the next
    question is "replace another clip?", and the answer "no" to it ends the
    session.  Nothing else has happened: the list and the files are as they
    were and the session returns [false]. *)
Theorem non_numeric_answer_reaches_replace_another video_files w :
  py_int (strip "abc") = None
  /\ prompt_for_replacements ["yes"; "abc"; "no"] video_files w
     = (Ok (Some (mkSession false video_files [])),
        add_logs [Ask AskReplaceAny; Ask (AskClipNumber (length video_files));
                  Print MsgInvalidInput; Ask AskReplaceAnother] w).
Proof.
  split; [reflexivity |].
  transitivity
    (Ok (Some (mkSession false video_files [])),
     add_log (Ask AskReplaceAnother)
       (add_log (Print MsgInvalidInput)
          (add_log (Ask (AskClipNumber (length video_files)))
             (add_log (Ask AskReplaceAny) w)))); [reflexivity |].
  f_equal. world_eq.
Qed.

End SessionTheorems.

Module CompilerFacts.
Import Text Stats Sys Spec Retriever Tools Replacement Compiler.
Import TextFacts SysFacts ReplacementFacts ExtractFacts.

(** The guard [if not off and not deff] in terms of [processed_stat]. *)
Lemma skip_guard e :
  (let '(off, deff) := extract_off_def (description e) in
   negb (truthy off) && negb (truthy deff))
  = bool_decide (processed_stat e = None).
Proof.
  unfold processed_stat.
  destruct (extract_shape (description e))
    as [-> | (g1 & g2 & _ & _ & _ & _ & _ & ->)]; simpl; [done |].
  rewrite !negb_involutive.
  by destruct ((int_of_digits g1 =? 0) && (int_of_digits g2 =? 0)).
Qed.

Lemma processed_stat_none e :
  processed_stat e = None
  <-> extract_off_def (description e) = (None, None)
      \/ extract_off_def (description e) = (Some 0, Some 0).
Proof.
  unfold processed_stat.
  destruct (extract_shape (description e))
    as [-> | (g1 & g2 & _ & _ & _ & _ & _ & ->)]; [by intuition |].
  destruct (Z.eqb_spec (int_of_digits g1) 0) as [->|];
    destruct (Z.eqb_spec (int_of_digits g2) 0) as [->|]; simpl;
    split; try done; try (by right); intros [|]; congruence.
Qed.

Lemma main_loop_skips count idx e rest st w :
  processed_stat e = None ->
  main_loop count idx (e :: rest) st w
  = main_loop count (idx + 1) rest st (add_log (Print (MsgSkipping (description e))) w).
Proof.
  intros Hnone. cbn [main_loop].
  pose proof (skip_guard e) as Hg. rewrite bool_decide_eq_true_2 in Hg by done.
  destruct (extract_off_def (description e)) as [off deff]. by rewrite Hg.
Qed.

Lemma main_loop_processes count idx e rest st w st' w' off deff :
  processed_stat e = Some (off, deff) ->
  main_loop count idx (e :: rest) st w = (Ok st', w') ->
  exists w1,
    main_loop count (idx + 1) rest
      (mkCompilation (video_files st ++ [processed_name idx off deff])
                     (temp_videos st ++ [clip_name idx off deff]) off deff) w1
    = (Ok st', w').
Proof.
  intros Hsome. cbn [main_loop].
  pose proof (skip_guard e) as Hg. rewrite bool_decide_eq_false_2 in Hg by congruence.
  unfold processed_stat in Hsome.
  destruct (extract_off_def (description e)) as [[o|] [d|]]; try discriminate.
  rewrite Hg. destruct ((o =? 0) && (d =? 0)); [discriminate |].
  injection Hsome as -> ->. intros H.
  do 6 apply bind_inv in H as (? & ? & _ & H). eauto.
Qed.

Lemma main_loop_totals events : forall count idx st w st' w',
  main_loop count idx events st w = (Ok st', w') ->
  (total_off st', total_def st')
  = default (total_off st, total_def st) (last (omap processed_stat events)).
Proof.
  induction events as [|e rest IH]; intros count idx st w st' w' H.
  - by apply ret_inv in H as [<- _].
  - cbn [omap list_omap]. destruct (processed_stat e) as [[off deff]|] eqn:He.
    + destruct (main_loop_processes count idx e rest st w st' w' off deff He H) as [w1 H1].
      clear H. rename H1 into H.
      apply IH in H. rewrite H, last_cons. simpl.
      by destruct (last (omap processed_stat rest)).
    + rewrite main_loop_skips in H by done. by apply IH in H.
Qed.

(** [os.remove] over a list: what is left, and that the listed files are gone. *)
Lemma remove_all_only_deletes paths : forall w w' p,
  remove_all paths w = (Ok tt, w') -> fs w !! p = None -> fs w' !! p = None.
Proof.
  induction paths as [|q rest IH]; intros w w' p H Hp.
  - by apply ret_inv in H as [_ <-].
  - simpl in H. apply bind_inv in H as ([] & w1 & Hrm & H).
    apply (IH _ _ _ H). unfold os_remove in Hrm.
    destruct (fs w !! q); [|discriminate]. injection Hrm as <-. simpl.
    destruct (decide (q = p)) as [->|]; [apply lookup_delete_eq |].
    by rewrite lookup_delete_ne.
Qed.

Lemma remove_all_removes paths : forall w w' p,
  remove_all paths w = (Ok tt, w') -> p ∈ paths -> fs w' !! p = None.
Proof.
  induction paths as [|q rest IH]; intros w w' p H Hp.
  - by apply elem_of_nil in Hp.
  - simpl in H. apply bind_inv in H as ([] & w1 & Hrm & H).
    apply elem_of_cons in Hp as [->|Hp]; [|by apply (IH _ _ _ H)].
    apply (remove_all_only_deletes _ _ _ _ H). unfold os_remove in Hrm.
    destruct (fs w !! q); [|discriminate]. injection Hrm as <-. simpl.
    apply lookup_delete_eq.
Qed.

End CompilerFacts.

Module CompilerTheorems.
Import Text Stats Sys Spec Retriever Tools Replacement Compiler.
Import CompilerFacts Examples.

(** C1, at the input where the code departs from it.  The description
    yields the pair (0, 0), and the main loop skips the event all the same:
    nothing is retrieved, annotated or appended, and [main] ends with
    "No videos were processed". *)
Theorem zero_pair_event_is_skipped count idx st w :
  extract_off_def "Hart REBOUND (Off:0 Def:0)" = (Some 0, Some 0)
  /\ main_loop count idx [event "Hart REBOUND (Off:0 Def:0)"] st w
     = (Ok st, add_log (Print (MsgSkipping "Hart REBOUND (Off:0 Def:0)")) w)
  /\ main_from_events "NYK" "BOS" "01/02/2025" [event "Hart REBOUND (Off:0 Def:0)"] [] w
     = (Ok None, add_log (Print MsgNoVideosProcessed)
                   (add_log (Print (MsgSkipping "Hart REBOUND (Off:0 Def:0)")) w)).
Proof. split_and!; reflexivity. Qed.

(** C3.  When the main loop ends, the running totals are the statistics of
    the last event it did not skip (and the initial ones if it skipped them
    all); they are not a sum.  In particular, of two events of which one is
    unparseable and the other is processed, the totals are the processed
    event's pair. *)
Theorem totals_are_last_seen count idx events st w st' w' :
  main_loop count idx events st w = (Ok st', w') ->
  (total_off st', total_def st')
  = default (total_off st, total_def st) (last (omap processed_stat events))
  /\ (forall e1 e2 off deff,
        events = [e1; e2] ->
        (extract_off_def (description e1) = (None, None)
         /\ processed_stat e2 = Some (off, deff))
        \/ (processed_stat e1 = Some (off, deff)
            /\ extract_off_def (description e2) = (None, None)) ->
        (total_off st', total_def st') = (off, deff)).
Proof.
  intros H. pose proof (main_loop_totals _ _ _ _ _ _ _ H) as Ht.
  split; [exact Ht |].
  intros e1 e2 off deff -> Hcase. rewrite Ht. cbn [omap list_omap].
  destruct Hcase as [[H1 H2] | [H1 H2]].
  - assert (processed_stat e1 = None) as -> by (apply processed_stat_none; by left).
    by rewrite H2.
  - assert (processed_stat e2 = None) as -> by (apply processed_stat_none; by left).
    by rewrite H1.
Qed.

(** After [Off:2 Def:1] and [Off:0 Def:3] the totals are (0, 3), not (2, 4). *)
Lemma totals_are_last_seen_witness :
  let events := [event "Hart REBOUND (Off:2 Def:1)"; event "Hart REBOUND (Off:0 Def:3)"] in
  let run := main_loop 2 0 events (mkCompilation [] [] 0 0) good_world in
  exists st', fst run = Ok st' /\ (total_off st', total_def st') = (0, 3).
Proof.
  intros events run.
  exists (mkCompilation
            ["processed_clip_0_Off2_Def1_Total3.mp4"; "processed_clip_1_Off0_Def3_Total3.mp4"]
            ["clip_0_Off2_Def1_Total3.mp4"; "clip_1_Off0_Def3_Total3.mp4"] 0 3).
  split; [vm_compute; reflexivity |].
  apply (totals_are_last_seen 2 0 events (mkCompilation [] [] 0 0) good_world _ (snd run)).
  vm_compute. reflexivity.
Defined.

(** C9, at the input where the code departs from it.  One event, one
    replacement of clip 1, every download and every ffmpeg run succeeds.  The
    run ends normally and the final artifact exists, yet the raw clip of the
    replacement, [temp_clip_0.mp4], is still there: [replace_clip] does not
    record it anywhere. *)
Theorem replacement_raw_clip_is_left_behind :
  let run :=
    main_from_events "NYK" "BOS" "01/02/2025"
      [event "Hart REBOUND (Off:1 Def:0)"]
      ["yes"; "1"; "https://www.nba.com/stats/events"; "no"] good_world in
  fst run = Ok (Some ["processed_clip_0_Off1_Def0_Total1.mp4"])
  /\ last (log (snd run)) = Some (Print MsgAllDone)
  /\ fs (snd run) !! "NYK_BOS_01_02_2025_Off1_Def0_Total1.mp4" = Some film_bytes
  /\ fs (snd run) !! "clip_0_Off1_Def0_Total1.mp4" = None
  /\ fs (snd run) !! "processed_clip_0_Off1_Def0_Total1.mp4" = None
  /\ fs (snd run) !! "temp_clip_0.mp4" = Some clip_bytes.
Proof. vm_compute. by split_and!. Qed.

(** When an earlier event was skipped, positions and event indices differ;
    the replacement then gets a new name and the annotated clip it replaces
    is left behind as well. *)
Example replaced_annotated_clip_is_left_behind :
  let run :=
    main_from_events "NYK" "BOS" "01/02/2025"
      [event "Hart REBOUND (Off:0 Def:0)"; event "Hart REBOUND (Off:1 Def:0)"]
      ["yes"; "1"; "https://www.nba.com/stats/events"; "no"] good_world in
  fst run = Ok (Some ["processed_clip_0_Off1_Def0_Total1.mp4"])
  /\ fs (snd run) !! "processed_clip_1_Off1_Def0_Total1.mp4" = Some film_bytes
  /\ fs (snd run) !! "temp_clip_0.mp4" = Some clip_bytes.
Proof. vm_compute. by split_and!. Qed.

End CompilerTheorems.

Module Scenarios.
Import Text Stats Sys Spec Retriever Tools Replacement Compiler.
Import RetrieverTheorems ConcatenatorTheorems Examples.



(** Five failed navigations: the failure is reported after the fifth, the
    browser is closed and nothing is written. *)
Example navigation_exhausted :
  let page := {| launch_ok := true; goto_ok := fun _ => false; selector_ok := fun _ => true;
                 video_src := None; response := None |} in
  let w := world_with ∅ page (Exited 0 None "") in
  let run := download_video_from_page "https://www.nba.com/stats/events" "clip.mp4" w in
  fst run = Ok tt
  /\ count_eff (fun e => match e with PageGoto _ => true | _ => false end) (log (snd run)) = 5%nat
  /\ In (Print MsgMaxRetries) (log (snd run))
  /\ last (log (snd run)) = Some PlaywrightStop
  /\ fs (snd run) !! "clip.mp4" = None.
Proof. vm_compute. split_and!; try done. tauto. Qed.

(** When the video element has no source the body raises before
    [browser.close()]; the browser goes with the session. *)
Example missing_source_is_released_by_the_session :
  let page := {| launch_ok := true; goto_ok := fun _ => true; selector_ok := fun _ => true;
                 video_src := None; response := None |} in
  let w := world_with ∅ page (Exited 0 None "") in
  let run := download_video_from_page "https://www.nba.com/stats/events" "clip.mp4" w in
  fst run = Raise VideoSourceNotFound
  /\ count_eff is_close (log (snd run)) = 0%nat
  /\ resources (log (snd run)) Idle = Some Idle.
Proof. vm_compute. by split_and!. Qed.

(** Three events in feed order give three annotated clips in that order,
    named with the totals 3, 3 and 1. *)
Example three_events_in_feed_order :
  video_files <$>
    returned (main_loop 3 0 [event "Hart REBOUND (Off:2 Def:1)";
                             event "Hart REBOUND (Off:0 Def:3)";
                             event "Hart REBOUND (Off:1 Def:0)"]
                (mkCompilation [] [] 0 0) good_world)
  = Some ["processed_clip_0_Off2_Def1_Total3.mp4";
          "processed_clip_1_Off0_Def3_Total3.mp4";
          "processed_clip_2_Off1_Def0_Total1.mp4"].
Proof. vm_compute. reflexivity. Qed.



End Scenarios.
